(** * Planticity: the plant simulation engine of [models/plant.py]

    A shallow embedding of the [Plant] model and of its [interact] method,
    with the properties of the specification proved, or refuted, on it.

    - Python integers are unbounded: they are [Z].
    - [Plant] is a mutable object and its methods raise exceptions: methods
      are computations in a state-and-exception monad whose state survives a
      raise, as the object survives it in Python.
    - [random.randint] reads the next cell of a tape of integers and folds it
      into the requested interval, so that quantifying over tapes is
      quantifying over the outcomes of all draws.
    - Floating point ([size] and the growth and flowering formulas) is kept
      behind an interface of operations; no property below depends on it.
    - [PLANT_SPECIES] and [TEXTS] are loaded from JSON files that are not
      part of the sources: the species record and the text table are
      parameters. *)

From Stdlib Require Import ZArith List String Bool Lia ZifyBool QArith
  DecimalString.
Import ListNotations.

Open Scope string_scope.
Open Scope list_scope.
Open Scope Z_scope.

(** ** Floating point, as an interface *)

Class FloatOps (float : Type) : Type := {
  flit : Q -> float;                        (* a decimal literal such as 0.01 *)
  fofZ : Z -> float;                        (* int operand promoted to float *)
  fadd : float -> float -> float;
  fsub : float -> float -> float;
  fmul : float -> float -> float;
  fdiv : float -> float -> option float;    (* None: division by zero *)
  round1 : float -> float;                  (* round(x, 1) *)
  ftrunc : float -> Z                       (* int(x) *)
}.

(** ** Status and actions *)

Inductive Status : Type :=
| SEED       (* 'seed' *)
| PLANTED    (* 'planted': seed in soil *)
| PLANT      (* 'plant': growing plant *)
| MATURE     (* 'mature': flowering *)
| YIELD      (* 'yield': game ended *)
| DEAD.      (* 'dead': game over *)

Definition status_eqb (a b : Status) : bool :=
  match a, b with
  | SEED, SEED | PLANTED, PLANTED | PLANT, PLANT
  | MATURE, MATURE | YIELD, YIELD | DEAD, DEAD => true
  | _, _ => false
  end.

(** [s in [a, b, ...]] on statuses. *)
Definition status_in (s : Status) (l : list Status) : bool :=
  existsb (status_eqb s) l.

(** The values of the [ACTIONS] dictionary. *)
Module ACTIONS.
Definition WAIT := "wait".
Definition PLANT_SEED := "plant seed".
Definition WATER := "water".
Definition FUNGICIDE := "fungicide".
Definition FUMIGATE := "fumigate".
Definition FERTILIZE := "fertilize".
End ACTIONS.

(** [STATUS_ACTIONS]: the dictionary has no entry for [DEAD]. *)
Definition STATUS_ACTIONS (s : Status) : option (list string) :=
  match s with
  | SEED => Some [ACTIONS.PLANT_SEED; ACTIONS.FUNGICIDE;
                  ACTIONS.FUMIGATE; ACTIONS.FERTILIZE]
  | PLANTED => Some [ACTIONS.WAIT; ACTIONS.WATER; ACTIONS.FERTILIZE]
  | PLANT => Some [ACTIONS.WAIT; ACTIONS.WATER; ACTIONS.FUNGICIDE;
                   ACTIONS.FUMIGATE; ACTIONS.FERTILIZE]
  | MATURE => Some [ACTIONS.WAIT; ACTIONS.WATER; ACTIONS.FUNGICIDE;
                    ACTIONS.FUMIGATE; ACTIONS.FERTILIZE]
  | YIELD => Some []
  | DEAD => None
  end.

(** [x in l] on strings. *)
Definition str_in (x : string) (l : list string) : bool :=
  existsb (String.eqb x) l.

(** ['%s' % n] for an integer. *)
Definition str (n : Z) : string := NilZero.string_of_int (Z.to_int n).

(** ** Exceptions *)

Inductive Exception : Type :=
| NotImplementedError (msg : string)
| ValueError (msg : string)
| KeyError (key : Status)
| ZeroDivisionError.

Definition is_NotImplementedError (e : Exception) : bool :=
  match e with NotImplementedError _ => true | _ => false end.

Definition is_ValueError (e : Exception) : bool :=
  match e with ValueError _ => true | _ => false end.

(** How a call ends. *)
Inductive Outcome (A : Type) : Type :=
| Return (a : A)
| Raise (e : Exception).
Arguments Return {A} a.
Arguments Raise {A} e.

Section Engine.

Context {float : Type} {FO : FloatOps float}.

(** ** The data tables *)

(** [data[status]] for the statuses that have a record. *)
Record StageData : Type := {
  ideal_fertilizer : Z;
  fungi_chance : Z;
  plague_chance : Z;
  flowers_day : float
}.

(** [data['evolution']]. *)
Record Evolution : Type := {
  germination : Z;
  maturity : Z;
  yield : Z
}.

(** One entry of [PLANT_SPECIES]. *)
Record Species : Type := {
  variety_name : string;
  variety_common_name : string;
  evolution : Evolution;
  growth_rate : float;
  adult_size : float;
  ideal_moisture : Z;
  per_status : Status -> option StageData
}.

(** [TEXTS]; a template is kept with its [%] substitution applied. *)
Record Texts : Type := {
  germinated : string;
  status_text : Status -> string;
  plant_size : float -> string;
  conditions_fungi : string;
  conditions_plague : string;
  fertilized_flowers : Z -> string -> string;
  moisture_text : string -> string;
  effect_days : string -> Z -> string -> string;
  fertilization_lack : string;
  fertilization_toxic : string;
  fertilization_ok : string
}.

(** ** The plant *)

Record Plant : Type := {
  name : string;
  common_name : string;
  age : Z;
  size : float;
  status : Status;
  stress : Z;
  moisture : Z;
  flowers : Z;
  look : string;
  fertilizer : Z;
  fungicide : Z;
  fumigation : Z;
  fungi : bool;
  plague : bool;
  dead : bool
}.

(** Attribute assignment, [self.x = v]. *)
Definition with_age (v : Z) (p : Plant) : Plant :=
  {| name := name p; common_name := common_name p; age := v; size := size p;
     status := status p; stress := stress p; moisture := moisture p;
     flowers := flowers p; look := look p; fertilizer := fertilizer p;
     fungicide := fungicide p; fumigation := fumigation p; fungi := fungi p;
     plague := plague p; dead := dead p |}.

Definition with_size (v : float) (p : Plant) : Plant :=
  {| name := name p; common_name := common_name p; age := age p; size := v;
     status := status p; stress := stress p; moisture := moisture p;
     flowers := flowers p; look := look p; fertilizer := fertilizer p;
     fungicide := fungicide p; fumigation := fumigation p; fungi := fungi p;
     plague := plague p; dead := dead p |}.

Definition with_status (v : Status) (p : Plant) : Plant :=
  {| name := name p; common_name := common_name p; age := age p;
     size := size p; status := v; stress := stress p; moisture := moisture p;
     flowers := flowers p; look := look p; fertilizer := fertilizer p;
     fungicide := fungicide p; fumigation := fumigation p; fungi := fungi p;
     plague := plague p; dead := dead p |}.

Definition with_stress (v : Z) (p : Plant) : Plant :=
  {| name := name p; common_name := common_name p; age := age p;
     size := size p; status := status p; stress := v; moisture := moisture p;
     flowers := flowers p; look := look p; fertilizer := fertilizer p;
     fungicide := fungicide p; fumigation := fumigation p; fungi := fungi p;
     plague := plague p; dead := dead p |}.

Definition with_moisture (v : Z) (p : Plant) : Plant :=
  {| name := name p; common_name := common_name p; age := age p;
     size := size p; status := status p; stress := stress p; moisture := v;
     flowers := flowers p; look := look p; fertilizer := fertilizer p;
     fungicide := fungicide p; fumigation := fumigation p; fungi := fungi p;
     plague := plague p; dead := dead p |}.

Definition with_flowers (v : Z) (p : Plant) : Plant :=
  {| name := name p; common_name := common_name p; age := age p;
     size := size p; status := status p; stress := stress p;
     moisture := moisture p; flowers := v; look := look p;
     fertilizer := fertilizer p; fungicide := fungicide p;
     fumigation := fumigation p; fungi := fungi p; plague := plague p;
     dead := dead p |}.

Definition with_look (v : string) (p : Plant) : Plant :=
  {| name := name p; common_name := common_name p; age := age p;
     size := size p; status := status p; stress := stress p;
     moisture := moisture p; flowers := flowers p; look := v;
     fertilizer := fertilizer p; fungicide := fungicide p;
     fumigation := fumigation p; fungi := fungi p; plague := plague p;
     dead := dead p |}.

Definition with_fertilizer (v : Z) (p : Plant) : Plant :=
  {| name := name p; common_name := common_name p; age := age p;
     size := size p; status := status p; stress := stress p;
     moisture := moisture p; flowers := flowers p; look := look p;
     fertilizer := v; fungicide := fungicide p; fumigation := fumigation p;
     fungi := fungi p; plague := plague p; dead := dead p |}.

Definition with_fungicide (v : Z) (p : Plant) : Plant :=
  {| name := name p; common_name := common_name p; age := age p;
     size := size p; status := status p; stress := stress p;
     moisture := moisture p; flowers := flowers p; look := look p;
     fertilizer := fertilizer p; fungicide := v; fumigation := fumigation p;
     fungi := fungi p; plague := plague p; dead := dead p |}.

Definition with_fumigation (v : Z) (p : Plant) : Plant :=
  {| name := name p; common_name := common_name p; age := age p;
     size := size p; status := status p; stress := stress p;
     moisture := moisture p; flowers := flowers p; look := look p;
     fertilizer := fertilizer p; fungicide := fungicide p; fumigation := v;
     fungi := fungi p; plague := plague p; dead := dead p |}.

Definition with_fungi (v : bool) (p : Plant) : Plant :=
  {| name := name p; common_name := common_name p; age := age p;
     size := size p; status := status p; stress := stress p;
     moisture := moisture p; flowers := flowers p; look := look p;
     fertilizer := fertilizer p; fungicide := fungicide p;
     fumigation := fumigation p; fungi := v; plague := plague p;
     dead := dead p |}.

Definition with_plague (v : bool) (p : Plant) : Plant :=
  {| name := name p; common_name := common_name p; age := age p;
     size := size p; status := status p; stress := stress p;
     moisture := moisture p; flowers := flowers p; look := look p;
     fertilizer := fertilizer p; fungicide := fungicide p;
     fumigation := fumigation p; fungi := fungi p; plague := v;
     dead := dead p |}.

Definition with_dead (v : bool) (p : Plant) : Plant :=
  {| name := name p; common_name := common_name p; age := age p;
     size := size p; status := status p; stress := stress p;
     moisture := moisture p; flowers := flowers p; look := look p;
     fertilizer := fertilizer p; fungicide := fungicide p;
     fumigation := fumigation p; fungi := fungi p; plague := plague p;
     dead := v |}.

(** ** The monad of methods

    A method runs on a world: the plant object and the number of random
    draws made so far.  It ends by returning a value or by raising; either
    way the world it leaves is the one it had built up to that point. *)

Record World : Type := { plant : Plant; draws : nat }.

Definition M (A : Type) : Type := World -> Outcome A * World.

Definition ret {A} (a : A) : M A := fun w => (Return a, w).

Definition bind {A B} (m : M A) (k : A -> M B) : M B :=
  fun w => match m w with
           | (Return a, w') => k a w'
           | (Raise e, w') => (Raise e, w')
           end.

Definition raise {A} (e : Exception) : M A := fun w => (Raise e, w).

Definition get : M Plant := fun w => (Return (plant w), w).

Definition update (f : Plant -> Plant) : M unit :=
  fun w => (Return tt, {| plant := f (plant w); draws := draws w |}).

Notation "x <- m ;; k" := (bind m (fun x => k))
  (at level 61, m at next level, right associativity).
Notation "m ;; k" := (bind m (fun _ => k))
  (at level 61, right associativity).

(** The outcomes of the random draws, in the order they are made. *)
Variable tape : nat -> Z.

(** [random.randint(a, b)]: an integer N with a <= N <= b. *)
Definition randint (a b : Z) : M Z :=
  fun w => (Return (a + tape (draws w) mod (b - a + 1)),
            {| plant := plant w; draws := S (draws w) |}).

(** [PLANT_SPECIES[self.name]] and [TEXTS]. *)
Variable data : Species.
Variable TEXTS : Texts.

(** ** Helpers *)

Definition _get_fertilizer_diff : M Z :=
  self <- get ;;
  match per_status data (status self) with
  | None => raise (KeyError (status self))
  | Some stage_data => ret (fertilizer self - ideal_fertilizer stage_data)
  end.

Definition _get_moisture_diff : M Z :=
  self <- get ;;
  ret (moisture self - ideal_moisture data).

(** [assert amount >= 0] holds at both call sites, where amount is 10. *)
Definition _add_stress (amount : Z) : M unit :=
  update (fun self => with_stress (Z.min (stress self + amount) 100) self).

(** ** Methods that progress the status of the plant *)

Definition _plant_seed : M unit :=
  self <- get ;;
  if negb (status_eqb (status self) SEED)
  then raise (ValueError "You have already planted your seed")
  else update (with_status PLANTED).

Definition _germinate : M unit :=
  self <- get ;;
  if negb (status_eqb (status self) PLANTED)
  then raise (ValueError "Error! To germinate, status should be planted")
  else
    update (with_status PLANT) ;;
    update (fun self =>
      with_stress
        (stress self + Z.abs (moisture self - ideal_moisture data)) self).

Definition _mature : M unit :=
  self <- get ;;
  if negb (status_eqb (status self) PLANT)
  then raise (ValueError
         "Error! To mature and start flowering, status should be plant")
  else update (with_status MATURE).

Definition _yield : M unit :=
  self <- get ;;
  if negb (status_eqb (status self) MATURE)
  then raise (ValueError "Error! To yield, the status should be mature")
  else
    update (with_status YIELD) ;;
    update (with_dead true).

Definition _kill : M unit :=
  update (with_status DEAD) ;;
  update (with_dead true).

(** ** Methods that perform actions *)

Definition _water : M unit :=
  retained_water <- randint 30 70 ;;
  update (fun self =>
    with_moisture (Z.min (moisture self + retained_water) 100) self).

Definition _fungicide : M unit :=
  update (with_fungi false) ;;
  update (with_fungicide 5) ;;
  _add_stress 10.

Definition _fumigate : M unit :=
  update (with_plague false) ;;
  update (with_fumigation 5) ;;
  _add_stress 10.

Definition _fertilize : M unit :=
  update (fun self => with_fertilizer (Z.min 100 (fertilizer self + 10)) self).

(** ** The steps of a day *)

Definition _evolve : M unit :=
  self <- get ;;
  if age self =? germination (evolution data) then _germinate
  else if age self =? maturity (evolution data) then _mature
  else if age self =? yield (evolution data) then _yield
  else ret tt.

Definition _consume_water : M unit :=
  lost_water <- randint 10 20 ;;
  update (fun self =>
    with_moisture (Z.max (moisture self - lost_water) 0) self).

Definition _grow : M unit :=
  self <- get ;;
  let day_growth :=
    fmul (fmul (flit 0.01) (fofZ (100 - stress self))) (growth_rate data) in
  diff <- _get_fertilizer_diff ;;
  let fertilizer_diff := Z.abs diff in
  let day_growth :=
    if fertilizer_diff <? 10
    then
      let multiplier := fmul (flit 0.033) (fofZ (10 - fertilizer_diff)) in
      fmul multiplier (growth_rate data)
    else day_growth in
  update (fun self => with_size (round1 (fadd (size self) day_growth)) self).

Definition _blossom : M unit :=
  diff <- _get_fertilizer_diff ;;
  let fertilizer_diff := Z.abs diff in
  let fertilizer_diff :=
    if fertilizer_diff <? 20
    then fmul (fofZ fertilizer_diff) (flit 0.05)
    else flit 1.2 in
  let fertile_factor := fsub (flit 1.2) fertilizer_diff in
  self <- get ;;
  match fdiv (size self) (adult_size data) with
  | None => raise ZeroDivisionError
  | Some growth_factor =>
    let stress_factor :=
      fsub (fofZ 1) (fmul (flit 0.01) (fofZ (stress self))) in
    dice <- randint 90 110 ;;
    let random_factor := fmul (flit 0.01) (fofZ dice) in
    let flower_factor :=
      fmul (fmul (fmul fertile_factor growth_factor) stress_factor)
        random_factor in
    match per_status data (status self) with
    | None => raise (KeyError (status self))
    | Some stage_data =>
      let daily_flowers := flowers_day stage_data in
      let fertile_flowers := fmul flower_factor daily_flowers in
      update (fun self =>
        with_flowers (flowers self + ftrunc fertile_flowers) self)
    end
  end.

Definition _roll_fungi : M unit :=
  self <- get ;;
  if negb (fungi self) && (fungicide self =? 0)
  then
    match per_status data (status self) with
    | None => raise (KeyError (status self))
    | Some stage_data =>
      let fungi_chance := fungi_chance stage_data in
      dice <- randint 0 100 ;;
      if fungi_chance >? dice then update (with_fungi true) else ret tt
    end
  else ret tt.

Definition _roll_plague : M unit :=
  self <- get ;;
  if negb (plague self) && (fumigation self =? 0)
  then
    match per_status data (status self) with
    | None => raise (KeyError (status self))
    | Some stage_data =>
      let plague_chance := plague_chance stage_data in
      dice <- randint 0 100 ;;
      if plague_chance >? dice then update (with_plague true) else ret tt
    end
  else ret tt.

Definition _calc_plant_stress : M unit :=
  diff <- _get_moisture_diff ;;
  let moisture_diff := Z.abs diff in
  update (fun self => with_stress (stress self + (moisture_diff - 30)) self) ;;
  self <- get ;;
  (if fungi self || plague self
   then update (fun self => with_stress (stress self + 25) self)
   else ret tt) ;;
  diff <- _get_fertilizer_diff ;;
  let fertilizer_diff := Z.abs diff in
  (if fertilizer_diff >? 20
   then update (fun self =>
          with_stress (stress self + (fertilizer_diff - 20)) self)
   else ret tt) ;;
  update (fun self => with_stress (Z.min (stress self) 100) self) ;;
  update (fun self => with_stress (Z.max (stress self) 0) self).

(** ** The description *)

Definition _get_moisture_text (self : Plant) : string :=
  let moisture_index :=
    if moisture self =? 0 then "1"
    else if moisture self <? 25 then "2"
    else if moisture self <? 50 then "3"
    else if moisture self <? 75 then "4"
    else "5" in
  moisture_text TEXTS moisture_index.

Definition _get_effect_text (text : string) (num : Z) : string :=
  let plural := if num >? 1 then "s" else "" in
  effect_days TEXTS text num plural.

(** [looks.append(x)] when [c] holds. *)
Definition append_if (c : bool) (x : string) (looks : list string) :=
  if c then looks ++ [x] else looks.

Definition _update_look : M unit :=
  self <- get ;;
  if status_eqb (status self) YIELD then
    update (with_look
      ("Game completed! Final yield: " ++ str (flowers self))%string)
  else if status_eqb (status self) DEAD then
    update (with_look "The plant is dead... Be more careful the next time!")
  else
    let looks := [] in
    let looks := looks ++ [("Day " ++ str (age self))%string] in
    let looks :=
      append_if (age self =? germination (evolution data))
        (germinated TEXTS) looks in
    let looks := looks ++ [status_text TEXTS (status self)] in
    let looks :=
      if status_in (status self) [PLANT; MATURE] then
        let looks := looks ++ [plant_size TEXTS (size self)] in
        let looks := append_if (fungi self) (conditions_fungi TEXTS) looks in
        append_if (plague self) (conditions_plague TEXTS) looks
      else looks in
    let looks :=
      if status_eqb (status self) MATURE then
        let plural := if flowers self >? 1 then "s" else "" in
        looks ++ [fertilized_flowers TEXTS (flowers self) plural]
      else looks in
    let looks := looks ++ [_get_moisture_text self] in
    let looks :=
      append_if (fungicide self >? 0)
        (_get_effect_text "fungicide" (fungicide self)) looks in
    let looks :=
      append_if (fumigation self >? 0)
        (_get_effect_text "fumigation" (fumigation self)) looks in
    looks <-
      (if status_in (status self) [PLANT; MATURE] then
         fertilizer_diff <- _get_fertilizer_diff ;;
         ret (if fertilizer_diff <? -20
              then looks ++ [fertilization_lack TEXTS]
              else if fertilizer_diff >? 20
              then looks ++ [fertilization_toxic TEXTS]
              else if (fertilizer_diff >? -10) && (fertilizer_diff <? 10)
              then looks ++ [fertilization_ok TEXTS]
              else looks)
       else ret looks) ;;
    let looks :=
      looks ++ [("Moisture: " ++ str (moisture self) ++ "%")%string] in
    let looks :=
      looks ++ [("Fertilizer: " ++ str (fertilizer self) ++ "%")%string] in
    let looks :=
      append_if (negb (status_in (status self) [SEED; PLANTED]))
        ("Stress: " ++ str (stress self) ++ "%")%string looks in
    update (with_look (String.concat ". " looks)).

(** ** Ending the day *)

(** The first block of [_end_day]: what happens when the plant is no longer
    a seed. *)
Definition end_day_not_seed : M unit :=
  self <- get ;;
  if negb (status_eqb (status self) SEED)
  then
    update (fun self => with_age (age self + 1) self) ;;
    update (fun self =>
      with_fungicide
        (fungicide self - (if fungicide self >? 0 then 1 else 0)) self) ;;
    update (fun self =>
      with_fumigation
        (fumigation self - (if fumigation self >? 0 then 1 else 0)) self) ;;
    update (fun self =>
      with_fertilizer
        (fertilizer self - (if fertilizer self >? 0 then 1 else 0)) self)
  else ret tt.

(** [_end_day] up to and including the recalculation of the stress. *)
Definition end_day_until_stress : M unit :=
  end_day_not_seed ;;
  _evolve ;;
  _consume_water ;;
  (self <- get ;;
   if status_eqb (status self) PLANT then _grow else ret tt) ;;
  (self <- get ;;
   if status_eqb (status self) MATURE then _blossom else ret tt) ;;
  (self <- get ;;
   if status_in (status self) [PLANT; MATURE]
   then _roll_fungi ;; _roll_plague ;; _calc_plant_stress
   else ret tt).

Definition _end_day : M unit :=
  end_day_until_stress ;;
  (self <- get ;;
   if stress self >? 99 then _kill else ret tt) ;;
  _update_look.

(** ** Interaction with the plant *)

(** The dispatch on the action, once it is known to be allowed. *)
Definition perform (action : string) : M unit :=
  if (action =? ACTIONS.WAIT)%string then ret tt
  else if (action =? ACTIONS.PLANT_SEED)%string then _plant_seed
  else if (action =? ACTIONS.WATER)%string then _water
  else if (action =? ACTIONS.FUNGICIDE)%string then _fungicide
  else if (action =? ACTIONS.FUMIGATE)%string then _fumigate
  else if (action =? ACTIONS.FERTILIZE)%string then _fertilize
  else ret tt.

(** [interact] has no [return] statement: a call that does not raise
    evaluates to Python's [None], here [None : option string]. *)
Definition interact (action : string) : M (option string) :=
  self <- get ;;
  match STATUS_ACTIONS (status self) with
  | None => raise (KeyError (status self))
  | Some possible_actions =>
    match possible_actions with
    | [] => raise (NotImplementedError "Status not recognized.")
    | _ =>
      if negb (str_in action possible_actions)
      then raise (NotImplementedError
             ("Action " ++ action ++ " not recognized!")%string)
      else
        perform action ;;
        _end_day ;;
        ret None
    end
  end.

(** [Plant.new_plant]: the defaults of the model, then [_update_look]. *)
Definition default_plant : Plant :=
  {| name := variety_name data;
     common_name := variety_common_name data;
     age := 0; size := fofZ 0; status := SEED; stress := 0; moisture := 0;
     flowers := 0;
     look := ("It's a " ++ variety_common_name data ++ " seed")%string;
     fertilizer := 0; fungicide := 0; fumigation := 0;
     fungi := false; plague := false; dead := false |}.

Definition new_plant : Plant :=
  plant (snd (_update_look {| plant := default_plant; draws := 0 |})).

Definition yielded (self : Plant) : bool := status_eqb (status self) YIELD.

End Engine.

Notation "x <- m ;; k" := (bind m (fun x => k))
  (at level 61, m at next level, right associativity).
Notation "m ;; k" := (bind m (fun _ => k))
  (at level 61, right associativity).

(** ** A program logic for methods *)

(** The exceptions that come from a table: a missing entry, or an adult
    size of zero. *)
Definition table_fault (e : Exception) : bool :=
  match e with
  | KeyError _ | ZeroDivisionError => true
  | _ => false
  end.

Section Logic.

Context {float : Type}.

(** [wp m Q E w]: run from [w], the method [m] returns a value and a world
    that satisfy [Q], or raises an exception and leaves a world that
    satisfy [E] with it.  A method is a total function: one of the two
    happens. *)
Definition wp {A} (m : @M float A) (Q : A -> World -> Prop)
    (E : Exception -> World -> Prop) (w : World) : Prop :=
  match m w with
  | (Return a, w') => Q a w'
  | (Raise e, w') => E e w'
  end.

(** The same on the plant alone, whatever the position on the tape. *)
Definition hoare {A} (P : Plant -> Prop) (m : @M float A)
    (Q : A -> Plant -> Prop) (E : Exception -> Plant -> Prop) : Prop :=
  forall w, P (plant w) ->
    wp m (fun a w' => Q a (plant w')) (fun e w' => E e (plant w')) w.

(** The attributes the properties below are about; the others are [name],
    [common_name], [size], [flowers], [look], [fungi] and [plague]. *)
Definition core (p : @Plant float) :
    Status * Z * Z * Z * Z * Z * Z * bool :=
  (status p, age p, stress p, moisture p, fertilizer p, fungicide p,
   fumigation p, dead p).

(** A method that leaves the core as it is, and raises table faults only. *)
Definition keeps_core {A} (m : @M float A) : Prop :=
  forall c,
    hoare (fun p => core p = c) m (fun _ p => core p = c)
      (fun e p => core p = c /\ table_fault e = true).

(** Where a day can raise: a table fault anywhere, or a [ValueError] in the
    stage evolution, which has not yet written anything and leaves the
    plant [p1] it found. *)
Definition fault_or_evolution (p1 : @Plant float) (e : Exception)
    (p : @Plant float) : Prop :=
  table_fault e = true \/ (is_ValueError e = true /\ p = p1).

End Logic.

(** ** The properties *)

Section Properties.

Context {float : Type} {FO : FloatOps float}.

Definition percent (x : Z) : Prop := 0 <= x <= 100.

(** Moisture, fertilizer and stress are percentages. *)
Definition bounded (p : @Plant float) : Prop :=
  percent (moisture p) /\ percent (fertilizer p) /\ percent (stress p).

(** The same in the middle of a day: on the day of germination the stress
    may exceed 100 until it is recalculated, and it is recalculated for a
    growing or mature plant. *)
Definition settling (p : @Plant float) : Prop :=
  percent (moisture p) /\ percent (fertilizer p) /\
  (status_in (status p) [PLANT; MATURE] = false -> percent (stress p)).

(** The protective counters. *)
Definition counters_in_range (p : @Plant float) : Prop :=
  0 <= fungicide p <= 5 /\ 0 <= fumigation p <= 5.

(** A seed has no age. *)
Definition seed_at_day_0 (p : @Plant float) : Prop :=
  status p = SEED -> age p = 0.

(** The position in SEED < PLANTED < PLANT < MATURE < YIELD; [DEAD] is not
    in the sequence. *)
Definition stage_index (s : Status) : option nat :=
  match s with
  | SEED => Some 0%nat
  | PLANTED => Some 1%nat
  | PLANT => Some 2%nat
  | MATURE => Some 3%nat
  | YIELD => Some 4%nat
  | DEAD => None
  end.

(** [s'] is not behind [s]: further in the sequence, or dead; nothing comes
    after [DEAD] but [DEAD]. *)
Definition not_backward (s s' : Status) : bool :=
  match stage_index s, stage_index s' with
  | Some i, Some j => (i <=? j)%nat
  | _, None => true
  | None, Some _ => false
  end.

(** The plant is not behind stage [s]. *)
Definition ahead (s : Status) (p : @Plant float) : Prop :=
  not_backward s (status p) = true.

(** The stage is SEED before the action and the action leaves it there. *)
Definition stays_seed (s : Status) (action : string) : bool :=
  status_eqb s SEED && negb (action =? ACTIONS.PLANT_SEED)%string.

(** [n] is one of the three days on which the species changes stage. *)
Definition threshold_day (data : @Species float) (n : Z) : bool :=
  (n =? germination (evolution data))
  || (n =? maturity (evolution data))
  || (n =? yield (evolution data)).

Variable tape : nat -> Z.
Variable data : @Species float.
Variable TEXTS : @Texts float.

(** A sequence of [interact] calls none of which raises; [None] when one
    does. *)
Fixpoint interacts (actions : list string) (w : World) : option World :=
  match actions with
  | [] => Some w
  | action :: rest =>
    match interact tape data TEXTS action w with
    | (Return _, w') => interacts rest w'
    | (Raise _, _) => None
    end
  end.

(** A sequence of [interact] calls whose exceptions are caught and dropped
    by the caller. *)
Fixpoint attempts (actions : list string) (w : World) : World :=
  match actions with
  | [] => w
  | action :: rest => attempts rest (snd (interact tape data TEXTS action w))
  end.

End Properties.

(** A plant is reachable when some sequence of [interact] calls that do not
    raise, under some outcome of the draws, leads to it from a new plant. *)
Definition reachable {float} {FO : FloatOps float} (data : Species)
    (TEXTS : Texts) (p : @Plant float) : Prop :=
  exists tape actions w,
    interacts tape data TEXTS actions
      {| plant := new_plant data TEXTS; draws := 0 |} = Some w
    /\ plant w = p.

(** ** Sample tables for the examples

    The JSON tables are not part of the sources; the values below are made
    up, and only the examples at the end of the file use them. *)

(** Exact rational arithmetic in the place of floating point. *)
#[local] Instance exact_floats : FloatOps Q := {|
  flit q := q;
  fofZ z := inject_Z z;
  fadd x y := Qred (x + y);
  fsub x y := Qred (x - y);
  fmul x y := Qred (x * y);
  fdiv x y := if Qeq_bool y 0 then None else Some (Qred (x / y));
  round1 x :=
    Qred (Qmake ((Qnum x * 20 + Zpos (Qden x)) / (2 * Zpos (Qden x))) 10);
  ftrunc x := Z.quot (Qnum x) (Zpos (Qden x))
|}.

Definition sample_species : @Species Q :=
  {| variety_name := "Pisum Sativum";
     variety_common_name := "Pea";
     evolution := {| germination := 3; maturity := 10; yield := 20 |};
     growth_rate := 2%Q;
     adult_size := 40%Q;
     ideal_moisture := 50;
     per_status s :=
       match s with
       | PLANT => Some {| ideal_fertilizer := 30; fungi_chance := 5;
                          plague_chance := 5; flowers_day := 0%Q |}
       | MATURE => Some {| ideal_fertilizer := 50; fungi_chance := 10;
                           plague_chance := 10; flowers_day := 3%Q |}
       | _ => None
       end |}.

Definition sample_texts : @Texts Q :=
  {| germinated := "The seed has germinated";
     status_text s :=
       match s with
       | SEED => "It is a seed"
       | PLANTED => "The seed is in the soil"
       | PLANT => "The plant is growing"
       | MATURE => "The plant is flowering"
       | YIELD => "yield"
       | DEAD => "dead"
       end;
     plant_size x :=
       ("Size: " ++ str (Qnum x) ++ "/" ++ str (Zpos (Qden x)))%string;
     conditions_fungi := "It has fungi";
     conditions_plague := "It has a plague";
     fertilized_flowers n plural :=
       (str n ++ " fertilized flower" ++ plural)%string;
     moisture_text index := ("Soil moisture level " ++ index)%string;
     effect_days text num plural :=
       (text ++ ": " ++ str num ++ " day" ++ plural ++ " left")%string;
     fertilization_lack := "It lacks fertilizer";
     fertilization_toxic := "Too much fertilizer";
     fertilization_ok := "The fertilizer is fine" |}.

(** A tape that starts with the given cells and goes on with zeros. *)
Definition tape_of (cells : list Z) : nat -> Z := fun n => nth n cells 0.

(** A world with a plant and a fresh tape. *)
Definition world_of {float} (p : @Plant float) : World :=
  {| plant := p; draws := 0 |}.

Definition sample_new_plant : @Plant Q := new_plant sample_species sample_texts.

(** A short game: the seed is planted and watered, and germinates on the
    third day. *)
Definition sample_tape : nat -> Z := tape_of [40; 0; 40; 0; 0; 1; 1].
Definition sample_actions : list string :=
  ["plant seed"; "water"; "water"; "wait"].

(** A seed that was given fungicide nine times. *)
Definition sprayed_seed : @Plant Q :=
  plant (attempts (tape_of []) sample_species sample_texts
           (repeat "fungicide" 9%nat) (world_of sample_new_plant)).

(** A seed that was given fungicide ten times. *)
Definition dead_seed : @Plant Q :=
  plant (attempts (tape_of []) sample_species sample_texts
           (repeat "fungicide" 10%nat) (world_of sample_new_plant)).

(** A seed that was fertilized, then planted. *)
Definition fertilized_seed : @Plant Q :=
  plant (attempts (tape_of []) sample_species sample_texts
           ["fertilize"; "plant seed"] (world_of sample_new_plant)).

(** A seed that was given fungicide nine times and fertilizer three
    times. *)
Definition tended_seed : @Plant Q :=
  plant (attempts (tape_of []) sample_species sample_texts
           (repeat "fungicide" 9%nat ++ repeat "fertilize" 3%nat)
           (world_of sample_new_plant)).

(** The tended seed is planted, then watered; on the third day it is
    watered again, and this is that day when [_evolve] is about to run.  The
    draws put 30 and 70 points of water in and take 10 and 20 out, and roll
    50 against the plague. *)
Definition germination_tape : nat -> Z := tape_of [0; 0; 0; 40; 10; 50].
Definition germination_eve : @World Q :=
  attempts germination_tape sample_species sample_texts
    ["plant seed"; "water"] (world_of tended_seed).
Definition germination_morning : @World Q :=
  snd ((perform germination_tape "water" ;; end_day_not_seed)
         germination_eve).

(** A plant that no sequence of calls produces: still planted on day 9,
    when the sample species germinates on day 3 and matures on day 10. *)
Definition stray_plant : @Plant Q :=
  with_age 9 (with_status PLANTED sample_new_plant).

(** ** Further properties *)

(** [action in STATUS_ACTIONS[status]], false when the status has no
    entry. *)
Definition allowed_action (s : Status) (action : string) : bool :=
  match STATUS_ACTIONS s with
  | Some possible_actions => str_in action possible_actions
  | None => false
  end.

(** The [ValueError]s of [_germinate], [_mature] and [_yield]. *)
Definition evolution_error (e : Exception) : Prop :=
  e = ValueError "Error! To germinate, status should be planted"
  \/ e = ValueError
           "Error! To mature and start flowering, status should be plant"
  \/ e = ValueError "Error! To yield, the status should be mature".

Section Tables.

Context {float : Type} {FO : FloatOps float}.

(** A species whose three days come in order, none of them day 0. *)
Definition ordered_thresholds (data : @Species float) : Prop :=
  1 <= germination (evolution data)
  /\ germination (evolution data) < maturity (evolution data)
  /\ maturity (evolution data) < yield (evolution data).

(** A species with a record for the growing and for the mature plant, and
    an adult size by which one can divide. *)
Definition complete_tables (data : @Species float) : Prop :=
  per_status data PLANT <> None
  /\ per_status data MATURE <> None
  /\ forall x, fdiv x (adult_size data) <> None.

(** The age that goes with each status, at the end of a day. *)
Definition on_schedule (data : @Species float) (p : @Plant float) : Prop :=
  match status p with
  | SEED => age p = 0
  | PLANTED => 1 <= age p < germination (evolution data)
  | PLANT =>
    germination (evolution data) <= age p < maturity (evolution data)
  | MATURE => maturity (evolution data) <= age p < yield (evolution data)
  | YIELD => age p = yield (evolution data)
  | DEAD => 0 <= age p <= yield (evolution data)
  end.

(** The same once the action is performed: a seed that was just planted
    has no age yet, and the game is not over. *)
Definition at_dawn (data : @Species float) (p : @Plant float) : Prop :=
  match status p with
  | SEED => age p = 0
  | PLANTED => 0 <= age p < germination (evolution data)
  | PLANT =>
    germination (evolution data) <= age p < maturity (evolution data)
  | MATURE => maturity (evolution data) <= age p < yield (evolution data)
  | YIELD | DEAD => False
  end.

(** The same once the day is counted, before the stage evolution. *)
Definition due (data : @Species float) (p : @Plant float) : Prop :=
  match status p with
  | SEED => age p = 0
  | PLANTED => 1 <= age p <= germination (evolution data)
  | PLANT =>
    germination (evolution data) < age p <= maturity (evolution data)
  | MATURE => maturity (evolution data) < age p <= yield (evolution data)
  | YIELD | DEAD => False
  end.

(** [dead] is set exactly in the two final statuses. *)
Definition dead_when_over (p : @Plant float) : Prop :=
  dead p = status_in (status p) [YIELD; DEAD].

(** No flowers before the plant is mature. *)
Definition no_flowers_yet (p : @Plant float) : Prop :=
  status_in (status p) [SEED; PLANTED; PLANT] = true -> flowers p = 0.

End Tables.

(** What [_fertilize] makes of the fertilizer, when it is the action. *)
Definition fertilized (action : string) (f : Z) : Z :=
  if (action =? ACTIONS.FERTILIZE)%string then Z.min 100 (f + 10) else f.

(** What an action makes of a protective counter: 5 when it is the
    treatment [name]. *)
Definition treated (name action : string) (c : Z) : Z :=
  if (action =? name)%string then 5 else c.

(** What the first block of the day makes of a countdown, for a plant that
    is or is not a seed. *)
Definition counted_down (seed : bool) (c : Z) : Z :=
  if seed then c else c - (if c >? 0 then 1 else 0).

(** The least and the most moisture that the action can leave. *)
Definition watered_least (action : string) (m : Z) : Z :=
  if (action =? ACTIONS.WATER)%string then Z.min (m + 30) 100 else m.
Definition watered_most (action : string) (m : Z) : Z :=
  if (action =? ACTIONS.WATER)%string then Z.min (m + 70) 100 else m.

Section Infections.

Context {float : Type}.

(** The plant is free of fungi ([f]) or of plague ([g]) and, where it is,
    the treatment still has [n] days to run. *)
Definition shielded (f g : bool) (n : Z) (p : @Plant float) : Prop :=
  (f = true -> fungi p = false /\ n <= fungicide p)
  /\ (g = true -> plague p = false /\ n <= fumigation p).

(** The plant has fungi ([f]) or a plague ([g]). *)
Definition infected (f g : bool) (p : @Plant float) : Prop :=
  (f = true -> fungi p = true) /\ (g = true -> plague p = true).

End Infections.

(** What [interact] raises when the action is not allowed. *)
Definition rejection (s : Status) (action : string) : Exception :=
  match s with
  | DEAD => KeyError DEAD
  | YIELD => NotImplementedError "Status not recognized."
  | _ => NotImplementedError ("Action " ++ action ++ " not recognized!")%string
  end.

Section Rendering.

Context {float : Type} {FO : FloatOps float}.

(** [look] is what [_update_look] makes of the other attributes: rendering
    the plant again changes nothing, and does not fail. *)
Definition rendered (data : @Species float) (TEXTS : @Texts float)
    (p : @Plant float) : Prop :=
  forall d : nat,
    _update_look data TEXTS {| plant := p; draws := d |}
    = (Return tt, {| plant := p; draws := d |}).

End Rendering.

(** The plant of the short game: on day 4, growing, with fungi and a
    plague. *)
Definition sample_world : @World Q :=
  attempts sample_tape sample_species sample_texts sample_actions
    (world_of sample_new_plant).
Definition sample_plant : @Plant Q := plant sample_world.

(** A seed that was given fungicide once. *)
Definition treated_seed : @World Q :=
  attempts (tape_of []) sample_species sample_texts ["fungicide"]
    (world_of sample_new_plant).

(** A game that is won: every draw is 50, so each watering adds 39 points,
    each day takes 16, and no roll infects the plant. *)
Definition steady_tape : nat -> Z := fun _ => 50.
Definition winning_actions : list string :=
  ["plant seed"] ++ repeat "water" 8
  ++ ["fertilize"; "fertilize"; "water"; "water"; "fertilize"; "water";
      "fertilize"]
  ++ repeat "water" 4.
Definition won_plant : @Plant Q :=
  plant (attempts steady_tape sample_species sample_texts winning_actions
           (world_of sample_new_plant)).

(** The seed of that game, once planted. *)
Definition planted_seed : @Plant Q :=
  plant (attempts steady_tape sample_species sample_texts ["plant seed"]
           (world_of sample_new_plant)).

(** ** The game (models/game.py)

    A game is played on the datastore.  Of the datastore the model keeps
    what one game touches: its plant, the game itself, its user, and the
    scores and moves that are put while it is played, in the order in which
    they are put.  [key.get()] reads the entity that is stored and [put()]
    stores it; a call of [take_action] is a request of its own, so an entity
    that is changed and not put is lost.  The classes [Move], [Score] and
    [User] are not among the sources: their attributes are those that
    game.py gives them.  The key of a move is its position among the moves
    stored; the clock is read like the tape of random draws. *)

(** [Move(date=..., action=..., result=...)] *)
Record Move : Type :=
  { move_date : Z; move_action : string; move_result : string }.

(** [Score(user=..., date=..., won=..., harvest=...)], of the user of the
    game. *)
Record Score : Type :=
  { score_date : Z; score_won : bool; score_harvest : Z }.

Record User : Type := { user_name : string; games_won : Z }.

(** [Game]: [user] and [plant] are the keys of the two entities of the
    datastore below. *)
Record Game : Type := { game_over : bool; moves : list nat }.

Section Games.

Context {float : Type} {FO : FloatOps float}.

Record Datastore : Type := {
  plant_entity : @Plant float;
  game_entity : Game;
  user_entity : User;
  score_entities : list Score;
  move_entities : list Move;
  drawn : nat;                      (* random draws made so far *)
  ticks : nat                       (* readings of the clock so far *)
}.

Variable tape : nat -> Z.
Variable data : @Species float.
Variable TEXTS : @Texts float.

(** [datetime.now()] and [date.today()], at the n-th reading of the
    clock. *)
Variables now today : nat -> Z.

Definition new_game (user : User) : Datastore :=
  {| plant_entity := new_plant data TEXTS;
     game_entity := {| game_over := false; moves := [] |};
     user_entity := user;
     score_entities := [];
     move_entities := [];
     drawn := 0;
     ticks := 0 |}.

(** [end_game] on the game [self] of the request; it returns [self] as it
    leaves it. *)
Definition end_game (won : bool) (self : Game) (store : Datastore) :
    Game * Datastore :=
  let self := {| game_over := true; moves := moves self |} in
  let user := user_entity store in
  let user :=
    if won
    then {| user_name := user_name user; games_won := games_won user + 1 |}
    else user in
  let score :=
    {| score_date := today (ticks store);
       score_won := won;
       score_harvest := flowers (plant_entity store) |} in
  (self,
   {| plant_entity := plant_entity store;
      game_entity := self;
      user_entity := user;
      score_entities := score_entities store ++ [score];
      move_entities := move_entities store;
      drawn := drawn store;
      ticks := S (ticks store) |}).

(** [take_action]: an exception of [interact] leaves the method before
    anything is put; the draws it made are made. *)
Definition take_action (action : string) (store : Datastore) :
    Outcome unit * Datastore :=
  let self := game_entity store in
  let plant_ref := {| plant := plant_entity store; draws := drawn store |} in
  match interact tape data TEXTS action plant_ref with
  | (Raise e, w) =>
    (Raise e,
     {| plant_entity := plant_entity store;
        game_entity := game_entity store;
        user_entity := user_entity store;
        score_entities := score_entities store;
        move_entities := move_entities store;
        drawn := draws w;
        ticks := ticks store |})
  | (Return _, w) =>
    let plant_ref := plant w in
    let store :=
      {| plant_entity := plant_ref;
         game_entity := game_entity store;
         user_entity := user_entity store;
         score_entities := score_entities store;
         move_entities := move_entities store;
         drawn := draws w;
         ticks := ticks store |} in
    let (self, store) :=
      if dead plant_ref
      then end_game (yielded plant_ref) self store
      else (self, store) in
    let move :=
      {| move_date := now (ticks store);
         move_action := action;
         move_result := look plant_ref |} in
    let key := List.length (move_entities store) in
    let self :=
      {| game_over := game_over self; moves := moves self ++ [key] |} in
    (Return tt,
     {| plant_entity := plant_entity store;
        game_entity := self;
        user_entity := user_entity store;
        score_entities := score_entities store;
        move_entities := move_entities store ++ [move];
        drawn := drawn store;
        ticks := S (ticks store) |})
  end.

(** A sequence of [take_action] calls whose exceptions are caught by the
    caller. *)
Fixpoint plays (actions : list string) (store : Datastore) : Datastore :=
  match actions with
  | [] => store
  | action :: rest => plays rest (snd (take_action action store))
  end.

(** What the datastore holds of a game, whose user had won [n] games
    before: the game is over when the plant is; then, and only then, it has
    a score, with the outcome and the harvest of the plant, and the user has
    one more game won if the plant has yielded; the game has the keys of the
    moves stored, and the last move has the look of the plant. *)
Definition consistent (n : Z) (store : Datastore) : Prop :=
  let p := plant_entity store in
  dead_when_over p
  /\ game_over (game_entity store) = dead p
  /\ games_won (user_entity store) = n + (if yielded p then 1 else 0)
  /\ map (fun s => (score_won s, score_harvest s)) (score_entities store)
     = (if dead p then [(yielded p, flowers p)] else [])
  /\ moves (game_entity store)
     = seq 0 (List.length (move_entities store))
  /\ (forall m, last (map Some (move_entities store)) None = Some m ->
      move_result m = look p).

End Games.

(** A clock that shows the number of its readings. *)
Definition sample_clock : nat -> Z := Z.of_nat.

Definition sample_user : User := {| user_name := "Ada"; games_won := 2 |}.

(** * Proofs *)

(** ** Rules of the program logic *)

Section Rules.

Context {float : Type}.
Implicit Types (w : @World float) (E : Exception -> @World float -> Prop).

Lemma wp_ret {A} (a : A) (Q : A -> World -> Prop) E w :
  Q a w -> wp (ret a) Q E w.
Proof. exact (fun H => H). Qed.

Lemma wp_raise {A} e (Q : A -> World -> Prop) E w :
  E e w -> wp (raise e) Q E w.
Proof. exact (fun H => H). Qed.

Lemma wp_get (Q : Plant -> World -> Prop) E w :
  Q (plant w) w -> wp get Q E w.
Proof. exact (fun H => H). Qed.

Lemma wp_update f (Q : unit -> World -> Prop) E w :
  Q tt {| plant := f (plant w); draws := draws w |} -> wp (update f) Q E w.
Proof. exact (fun H => H). Qed.

Lemma wp_bind {A B} (m : @M float A) (k : A -> M B)
    (Q : B -> World -> Prop) E w :
  wp m (fun a w' => wp (k a) Q E w') E w -> wp (bind m k) Q E w.
Proof. unfold wp, bind. destruct (m w) as [[a | e] w']; trivial. Qed.

Lemma wp_randint tape a b (Q : Z -> World -> Prop) E w :
  a <= b ->
  (forall r, a <= r <= b ->
     Q r {| plant := plant w; draws := S (draws w) |}) ->
  wp (randint tape a b) Q E w.
Proof.
  intros Hab HQ. unfold wp, randint. apply HQ.
  pose proof (Z.mod_pos_bound (tape (draws w)) (b - a + 1)). lia.
Qed.

Lemma wp_mono {A} (m : @M float A) (Q Q' : A -> World -> Prop) E E' w :
  wp m Q E w ->
  (forall a w', Q a w' -> Q' a w') ->
  (forall e w', E e w' -> E' e w') ->
  wp m Q' E' w.
Proof.
  unfold wp. destruct (m w) as [[a | e] w']; intros H HQ HE; auto.
Qed.

(** A proved triple is used on a call in the middle of a method. *)
Lemma wp_call {A} (P : Plant -> Prop) (m : @M float A)
    (Q0 : A -> Plant -> Prop) (E0 : Exception -> Plant -> Prop)
    (Q : A -> World -> Prop) E w :
  hoare P m Q0 E0 ->
  P (plant w) ->
  (forall a w', Q0 a (plant w') -> Q a w') ->
  (forall e w', E0 e (plant w') -> E e w') ->
  wp m Q E w.
Proof.
  intros Hm HP HQ HE. eapply wp_mono; [apply Hm, HP | |]; cbv beta; auto.
Qed.

Lemma hoare_weaken {A} (P P' : Plant -> Prop) (m : @M float A)
    (Q Q' : A -> Plant -> Prop) (E0 E1 : Exception -> Plant -> Prop) :
  hoare P m Q E0 ->
  (forall p, P' p -> P p) ->
  (forall a p, Q a p -> Q' a p) ->
  (forall e p, E0 e p -> E1 e p) ->
  hoare P' m Q' E1.
Proof.
  intros Hm HP HQ HE w Hw. eapply wp_mono; [apply Hm, HP, Hw | |];
    cbv beta; auto.
Qed.

Lemma hoare_bind {A B} (P : Plant -> Prop) (m : @M float A) (k : A -> M B)
    (R : A -> Plant -> Prop) (Q : B -> Plant -> Prop)
    (E0 : Exception -> Plant -> Prop) :
  hoare P m R E0 ->
  (forall a, hoare (R a) (k a) Q E0) ->
  hoare P (bind m k) Q E0.
Proof.
  intros Hm Hk w Hw. apply wp_bind.
  eapply wp_mono; [apply Hm, Hw | |]; cbv beta.
  - intros a w' Ha. apply Hk, Ha.
  - trivial.
Qed.

(** What a run returns, read off a weakest precondition. *)
Lemma wp_returns {A} (m : @M float A) (Q : A -> World -> Prop) E w a w' :
  wp m Q E w -> m w = (Return a, w') -> Q a w'.
Proof. unfold wp. intros H Hrun. rewrite Hrun in H. exact H. Qed.

(** With no exception allowed, a weakest precondition says that the method
    returns. *)
Lemma wp_total {A} (m : @M float A) (Q : A -> World -> Prop) w :
  wp m Q (fun _ _ => False) w ->
  exists a w', m w = (Return a, w') /\ Q a w'.
Proof.
  unfold wp. destruct (m w) as [[a | e] w']; [eauto | contradiction].
Qed.

End Rules.

(** Projections of updated records. *)
Ltac fields :=
  cbn [plant draws name common_name age size status stress moisture flowers
       look fertilizer fungicide fumigation fungi plague dead
       with_age with_size with_status with_stress with_moisture with_flowers
       with_look with_fertilizer with_fungicide with_fumigation with_fungi
       with_plague with_dead core fst snd
       negb andb orb status_eqb status_in existsb] in *.

(** One step of symbolic execution. *)
Ltac wp_step :=
  cbv beta iota zeta;
  lazymatch goal with
  | |- wp (bind _ _) _ _ _ => apply wp_bind
  | |- wp (ret _) _ _ _ => apply wp_ret
  | |- wp (raise _) _ _ _ => apply wp_raise
  | |- wp get _ _ _ => apply wp_get
  | |- wp (update _) _ _ _ => apply wp_update
  | |- wp (randint _ _ _) _ _ _ =>
      apply wp_randint; [lia | intros ? ?]
  | |- wp (if ?c then _ else _) _ _ _ => destruct c eqn:?
  | |- wp (match ?o with _ => _ end) _ _ _ => destruct o eqn:?
  end; cbv beta iota zeta; fields.

Ltac wp_run := repeat wp_step.

(** The table of allowed actions, on an action that is known. *)
Ltac allowed :=
  cbn [STATUS_ACTIONS ACTIONS.WAIT ACTIONS.PLANT_SEED ACTIONS.WATER
       ACTIONS.FUNGICIDE ACTIONS.FUMIGATE ACTIONS.FERTILIZE
       str_in existsb String.eqb Ascii.eqb Bool.eqb negb orb andb] in *.

(** A triple about a method made of primitive steps only. *)
Ltac hoare_run := intros w Hpre; wp_run.

(** The same by cases on the status of the plant. *)
Ltac hoare_cases :=
  intros [[? ? ? ? st ? ? ? ? ? ? ? ? ? ?] ?] Hpre; destruct st; fields;
  wp_run.

(** Transport along an equality of cores. *)
Ltac core_eq H :=
  unfold core in H; injection H as ? ? ? ? ? ? ? ?;
  repeat match goal with
         | Heq : ?f ?p = ?f ?q |- _ => rewrite Heq in *; clear Heq
         end.

(** ** Methods that leave the core alone *)

Section Frames.

Context {float : Type} {FO : FloatOps float}.
Variable tape : nat -> Z.
Variable data : @Species float.
Variable TEXTS : @Texts float.

Lemma get_fertilizer_diff_keeps_core :
  keeps_core (_get_fertilizer_diff data).
Proof. intro c. unfold _get_fertilizer_diff. hoare_run; auto. Qed.

Lemma grow_keeps_core : keeps_core (_grow data).
Proof. intro c. unfold _grow, _get_fertilizer_diff. hoare_run; auto. Qed.

Lemma blossom_keeps_core : keeps_core (_blossom tape data).
Proof. intro c. unfold _blossom, _get_fertilizer_diff. hoare_run; auto. Qed.

Lemma roll_fungi_keeps_core : keeps_core (_roll_fungi tape data).
Proof. intro c. unfold _roll_fungi. hoare_run; auto. Qed.

Lemma roll_plague_keeps_core : keeps_core (_roll_plague tape data).
Proof. intro c. unfold _roll_plague. hoare_run; auto. Qed.

Lemma update_look_keeps_core : keeps_core (_update_look data TEXTS).
Proof.
  intro c. unfold _update_look, _get_fertilizer_diff. hoare_run; auto.
Qed.

End Frames.

(** A call to a method that keeps the core. *)
Ltac wp_frame lem :=
  lazymatch goal with
  | |- wp _ _ _ ?w =>
      eapply wp_call;
      [ apply (lem (core (plant w)))
      | reflexivity
      | cbv beta; intros ? ? ?
      | cbv beta; intros ? ? [? ?] ]
  end.

(** ** The shape of a day and of a call

    A property [I] of the plant holds after [interact] as soon as the few
    methods that write the core establish it; [I0] is what the action
    leaves, [I1] what holds when the stage evolution starts, [J] what holds
    from there to the recalculation of the stress, and [X] what holds when
    the call raises. *)

Section DayRule.

Context {float : Type} {FO : FloatOps float}.
Variable tape : nat -> Z.
Variable data : @Species float.
Variable TEXTS : @Texts float.

Local Abbreviation triple := (@hoare float _).

Variables P I0 I1 I J : @Plant float -> Prop.
Variable X : Exception -> @Plant float -> Prop.

Hypothesis I_core : forall p p', core p' = core p -> I p -> I p'.
Hypothesis J_core : forall p p', core p' = core p -> J p -> J p'.
Hypothesis X_fault_I : forall e p, table_fault e = true -> I p -> X e p.
Hypothesis X_fault_J : forall e p, table_fault e = true -> J p -> X e p.

Hypothesis not_seed_ok : triple I0 end_day_not_seed (fun _ => I1) X.
Hypothesis evolve_ok : triple I1 (_evolve data) (fun _ => J) X.
Hypothesis consume_water_ok :
  triple J (_consume_water tape) (fun _ => J) X.
Hypothesis calc_plant_stress_ok :
  triple (fun p => J p /\ status_in (status p) [PLANT; MATURE] = true)
    (_calc_plant_stress data) (fun _ => I) X.
Hypothesis no_stress_ok :
  forall p, J p -> status_in (status p) [PLANT; MATURE] = false -> I p.
Hypothesis kill_ok : forall p, I p -> I (with_dead true (with_status DEAD p)).

Lemma status_core (p p' : @Plant float) :
  core p' = core p -> status p' = status p.
Proof. unfold core. congruence. Qed.

Lemma until_stress_rule :
  triple I0 (end_day_until_stress tape data) (fun _ => I) X.
Proof.
  unfold end_day_until_stress.
  eapply hoare_bind; [apply not_seed_ok | intros []; cbv beta].
  eapply hoare_bind; [apply evolve_ok | intros []; cbv beta].
  eapply hoare_bind; [apply consume_water_ok | intros []; cbv beta].
  intros w HJ.
  (* growth *)
  apply wp_bind, wp_bind, wp_get.
  assert (Hgrow : wp (if status_eqb (status (plant w)) PLANT
                      then _grow data else ret tt)
            (fun _ w' => J (plant w')) (fun e w' => X e (plant w')) w).
  { destruct (status_eqb (status (plant w)) PLANT).
    - wp_frame (grow_keeps_core data); eauto.
    - apply wp_ret, HJ. }
  eapply wp_mono; [apply Hgrow | | trivial]. clear w HJ Hgrow.
  cbv beta. intros [] w HJ.
  (* flowers *)
  apply wp_bind, wp_bind, wp_get.
  assert (Hblossom : wp (if status_eqb (status (plant w)) MATURE
                         then _blossom tape data else ret tt)
            (fun _ w' => J (plant w')) (fun e w' => X e (plant w')) w).
  { destruct (status_eqb (status (plant w)) MATURE).
    - wp_frame (blossom_keeps_core tape data); eauto.
    - apply wp_ret, HJ. }
  eapply wp_mono; [apply Hblossom | | trivial]. clear w HJ Hblossom.
  cbv beta. intros [] w HJ.
  (* infections and stress *)
  apply wp_bind, wp_get.
  destruct (status_in (status (plant w)) [PLANT; MATURE]) eqn:Hin.
  - apply wp_bind. wp_frame (roll_fungi_keeps_core tape data); [| eauto].
    apply wp_bind. wp_frame (roll_plague_keeps_core tape data); [| eauto].
    apply calc_plant_stress_ok. split.
    + eauto.
    + repeat match goal with
             | H : core _ = core _ |- _ =>
                 rewrite (status_core _ _ H); clear H
             end.
      exact Hin.
  - apply wp_ret. auto.
Qed.

Lemma end_day_rule : triple I0 (_end_day tape data TEXTS) (fun _ => I) X.
Proof.
  unfold _end_day.
  eapply hoare_bind; [apply until_stress_rule | intros []; cbv beta].
  intros w HI. apply wp_bind, wp_bind, wp_get.
  destruct (stress (plant w) >? 99).
  - unfold _kill. wp_run.
    wp_frame (update_look_keeps_core data TEXTS); fields; eauto.
  - apply wp_ret.
    wp_frame (update_look_keeps_core data TEXTS); fields; eauto.
Qed.

Variable action : string.
Hypothesis perform_ok : triple P (perform tape action) (fun _ => I0) X.
Hypothesis X_invalid : forall msg p, P p -> X (NotImplementedError msg) p.
Hypothesis X_no_entry : forall s p, P p -> X (KeyError s) p.

Lemma interact_rule :
  triple P (interact tape data TEXTS action) (fun _ => I) X.
Proof.
  intros w HP. unfold interact. apply wp_bind, wp_get.
  destruct (STATUS_ACTIONS (status (plant w))) as [[| a0 l] |].
  - apply wp_raise. auto.
  - destruct (negb (str_in action (a0 :: l))).
    + apply wp_raise. auto.
    + apply wp_bind.
      eapply wp_call; [apply perform_ok | exact HP | | trivial].
      intros [] w0 H0. apply wp_bind.
      eapply wp_call; [apply end_day_rule | exact H0 | | trivial].
      intros [] w1 H1. apply wp_ret. exact H1.
  - apply wp_raise. auto.
Qed.

End DayRule.

(** ** The invariants *)

Section Invariants.

Context {float : Type} {FO : FloatOps float}.
Variable tape : nat -> Z.
Variable data : @Species float.
Variable TEXTS : @Texts float.

Local Abbreviation triple := (@hoare float _).
Local Abbreviation anyhow := (fun (_ : Exception) (_ : @Plant float) => True).

Ltac leaf :=
  unfold bounded, settling, counters_in_range, seed_at_day_0, ahead, percent
    in *;
  fields;
  repeat match goal with
         | |- context [if ?c then _ else _] => destruct c eqn:?
         end;
  try tauto; try congruence; try (intuition (congruence || lia)).

Ltac methods :=
  unfold perform, _plant_seed, _water, _fungicide, _fumigate, _fertilize,
    _add_stress, end_day_not_seed, _evolve, _germinate, _mature, _yield,
    _consume_water, _calc_plant_stress, _get_moisture_diff,
    _get_fertilizer_diff, _kill.

(** *** Percentages *)

Lemma bounded_core (p p' : @Plant float) :
  core p' = core p -> bounded p -> bounded p'.
Proof. intros H. unfold bounded. core_eq H. trivial. Qed.

Lemma settling_core (p p' : @Plant float) :
  core p' = core p -> settling p -> settling p'.
Proof. intros H. unfold settling. core_eq H. trivial. Qed.

Lemma perform_bounded action :
  triple bounded (perform tape action) (fun _ => bounded) anyhow.
Proof. methods. hoare_run; leaf. Qed.

Lemma not_seed_bounded :
  triple bounded end_day_not_seed (fun _ => bounded) anyhow.
Proof. methods. hoare_run; leaf. Qed.

Lemma evolve_settling :
  triple bounded (_evolve data) (fun _ => settling) anyhow.
Proof. methods. hoare_cases; leaf. Qed.

Lemma consume_water_settling :
  triple settling (_consume_water tape) (fun _ => settling) anyhow.
Proof. methods. hoare_run; leaf. Qed.

Lemma calc_plant_stress_bounded :
  triple (fun p => settling p /\ status_in (status p) [PLANT; MATURE] = true)
    (_calc_plant_stress data) (fun _ => bounded) anyhow.
Proof. methods. hoare_run; leaf. Qed.

Lemma interact_bounded action :
  triple bounded (interact tape data TEXTS action) (fun _ => bounded) anyhow.
Proof.
  apply interact_rule with (I0 := bounded) (I1 := bounded) (J := settling);
    first [ exact bounded_core | exact settling_core
          | exact not_seed_bounded | exact evolve_settling
          | exact consume_water_settling | exact calc_plant_stress_bounded
          | exact (perform_bounded action) | solve [trivial]
          | solve [intros p; leaf] ].
Qed.

(** *** The protective counters *)

Lemma counters_core (p p' : @Plant float) :
  core p' = core p -> counters_in_range p -> counters_in_range p'.
Proof. intros H. unfold counters_in_range. core_eq H. trivial. Qed.

Lemma perform_counters action :
  triple counters_in_range (perform tape action)
    (fun _ => counters_in_range) (fun _ => counters_in_range).
Proof. methods. hoare_run; leaf. Qed.

Lemma not_seed_counters :
  triple counters_in_range end_day_not_seed
    (fun _ => counters_in_range) (fun _ => counters_in_range).
Proof. methods. hoare_run; leaf. Qed.

Lemma evolve_counters :
  triple counters_in_range (_evolve data)
    (fun _ => counters_in_range) (fun _ => counters_in_range).
Proof. methods. hoare_run; leaf. Qed.

Lemma consume_water_counters :
  triple counters_in_range (_consume_water tape)
    (fun _ => counters_in_range) (fun _ => counters_in_range).
Proof. methods. hoare_run; leaf. Qed.

Lemma calc_plant_stress_counters :
  triple
    (fun p => counters_in_range p
              /\ status_in (status p) [PLANT; MATURE] = true)
    (_calc_plant_stress data)
    (fun _ => counters_in_range) (fun _ => counters_in_range).
Proof. methods. hoare_run; leaf. Qed.

Lemma interact_counters action :
  triple counters_in_range (interact tape data TEXTS action)
    (fun _ => counters_in_range) (fun _ => counters_in_range).
Proof.
  apply interact_rule with (I0 := counters_in_range) (I1 := counters_in_range)
         (J := counters_in_range);
    first [ exact counters_core | exact not_seed_counters
          | exact evolve_counters | exact consume_water_counters
          | exact calc_plant_stress_counters | exact (perform_counters action)
          | solve [trivial]
          | solve [intros p; leaf] ].
Qed.

(** *** A seed has no age *)

Lemma seed_core (p p' : @Plant float) :
  core p' = core p -> seed_at_day_0 p -> seed_at_day_0 p'.
Proof. intros H. unfold seed_at_day_0. core_eq H. trivial. Qed.

Lemma perform_seed action :
  triple seed_at_day_0 (perform tape action) (fun _ => seed_at_day_0) anyhow.
Proof. methods. hoare_cases; leaf. Qed.

Lemma not_seed_seed :
  triple seed_at_day_0 end_day_not_seed (fun _ => seed_at_day_0) anyhow.
Proof. methods. hoare_cases; leaf. Qed.

Lemma evolve_seed :
  triple seed_at_day_0 (_evolve data) (fun _ => seed_at_day_0) anyhow.
Proof. methods. hoare_cases; leaf. Qed.

Lemma consume_water_seed :
  triple seed_at_day_0 (_consume_water tape) (fun _ => seed_at_day_0) anyhow.
Proof. methods. hoare_run; leaf. Qed.

Lemma calc_plant_stress_seed :
  triple
    (fun p => seed_at_day_0 p /\ status_in (status p) [PLANT; MATURE] = true)
    (_calc_plant_stress data) (fun _ => seed_at_day_0) anyhow.
Proof. methods. hoare_run; leaf. Qed.

Lemma interact_seed action :
  triple seed_at_day_0 (interact tape data TEXTS action)
    (fun _ => seed_at_day_0) anyhow.
Proof.
  apply interact_rule with (I0 := seed_at_day_0) (I1 := seed_at_day_0)
         (J := seed_at_day_0);
    first [ exact seed_core | exact not_seed_seed | exact evolve_seed
          | exact consume_water_seed | exact calc_plant_stress_seed
          | exact (perform_seed action) | solve [trivial]
          | solve [intros p; leaf] ].
Qed.

(** *** The stage does not move backward *)

Lemma not_backward_refl s : not_backward s s = true.
Proof. destruct s; reflexivity. Qed.

Lemma not_backward_trans s1 s2 s3 :
  not_backward s1 s2 = true -> not_backward s2 s3 = true ->
  not_backward s1 s3 = true.
Proof. destruct s1, s2, s3; cbv; congruence. Qed.

Lemma ahead_core s (p p' : @Plant float) :
  core p' = core p -> ahead s p -> ahead s p'.
Proof. intros H. unfold ahead. core_eq H. trivial. Qed.

Ltac stages s :=
  unfold ahead in *; fields; destruct s;
  cbv [not_backward stage_index Nat.leb] in *; congruence.

Lemma perform_ahead s action :
  triple (ahead s) (perform tape action) (fun _ => ahead s)
    (fun _ => ahead s).
Proof. methods. hoare_cases; stages s. Qed.

Lemma not_seed_ahead s :
  triple (ahead s) end_day_not_seed (fun _ => ahead s) (fun _ => ahead s).
Proof. methods. hoare_run; stages s. Qed.

Lemma evolve_ahead s :
  triple (ahead s) (_evolve data) (fun _ => ahead s) (fun _ => ahead s).
Proof. methods. hoare_cases; stages s. Qed.

Lemma consume_water_ahead s :
  triple (ahead s) (_consume_water tape) (fun _ => ahead s)
    (fun _ => ahead s).
Proof. methods. hoare_run; stages s. Qed.

Lemma calc_plant_stress_ahead s :
  triple (fun p => ahead s p /\ status_in (status p) [PLANT; MATURE] = true)
    (_calc_plant_stress data) (fun _ => ahead s) (fun _ => ahead s).
Proof. methods. hoare_run; destruct Hpre; stages s. Qed.

Lemma interact_ahead s action :
  triple (ahead s) (interact tape data TEXTS action) (fun _ => ahead s)
    (fun _ => ahead s).
Proof.
  apply interact_rule with (I0 := ahead s) (I1 := ahead s) (J := ahead s);
    first [ exact (ahead_core s) | exact (not_seed_ahead s)
          | exact (evolve_ahead s) | exact (consume_water_ahead s)
          | exact (calc_plant_stress_ahead s) | exact (perform_ahead s action)
          | solve [trivial]
          | solve [intros p; stages s] ].
Qed.

End Invariants.

(** ** Sequences of calls *)

Section Sequences.

Context {float : Type} {FO : FloatOps float}.
Variable data : @Species float.
Variable TEXTS : @Texts float.

Local Abbreviation triple := (@hoare float _).

(** What a call returns, or leaves when it raises, read off a triple. *)
Lemma hoare_returns {A} (P : @Plant float -> Prop) (m : M A) Q X w a w' :
  triple P m Q X -> P (plant w) -> m w = (Return a, w') -> Q a (plant w').
Proof. intros Hm HP Hrun. exact (wp_returns _ _ _ _ _ _ (Hm w HP) Hrun). Qed.

Lemma hoare_leaves {A} (I : @Plant float -> Prop) (m : M A) w :
  triple I m (fun _ => I) (fun _ => I) -> I (plant w) -> I (plant (snd (m w))).
Proof.
  intros Hm HI. specialize (Hm w HI). unfold wp in Hm.
  destruct (m w) as [[a | e] w']; exact Hm.
Qed.

Section Preserved.

Variable I : @Plant float -> Prop.
Variable X : Exception -> @Plant float -> Prop.
Hypothesis interact_ok :
  forall tape action,
    triple I (interact tape data TEXTS action) (fun _ => I) X.

Lemma interacts_preserve tape actions :
  forall w w',
    I (plant w) -> interacts tape data TEXTS actions w = Some w' ->
    I (plant w').
Proof.
  induction actions as [| action rest IH]; simpl; intros w w' HI Hrun.
  - congruence.
  - destruct (interact tape data TEXTS action w) as [[v | e] w1] eqn:Hcall;
      [| discriminate].
    apply (IH w1); [| exact Hrun].
    exact (hoare_returns _ _ _ _ _ _ _ (interact_ok tape action) HI Hcall).
Qed.

Hypothesis new_plant_ok : I (new_plant data TEXTS).

Lemma reachable_preserve p : reachable data TEXTS p -> I p.
Proof.
  intros (tape & actions & w & Hrun & <-).
  exact (interacts_preserve tape actions _ _ new_plant_ok Hrun).
Qed.

End Preserved.

Lemma attempts_preserve (I : @Plant float -> Prop) tape :
  (forall action,
     triple I (interact tape data TEXTS action) (fun _ => I) (fun _ => I)) ->
  forall actions w,
    I (plant w) -> I (plant (attempts tape data TEXTS actions w)).
Proof.
  intros Hcall. induction actions as [| action rest IH]; simpl; intros w HI.
  - exact HI.
  - apply IH. apply hoare_leaves; [apply Hcall | exact HI].
Qed.

(** The new plant: the defaults but for [look]. *)
Lemma new_plant_core :
  core (new_plant data TEXTS) = core (default_plant data).
Proof.
  unfold new_plant.
  pose proof (update_look_keeps_core data TEXTS (core (default_plant data))
                {| plant := default_plant data; draws := 0 |} eq_refl) as H.
  unfold wp in H.
  destruct (_update_look data TEXTS _) as [[[] | e] w]; simpl; tauto.
Qed.

Lemma new_plant_bounded : bounded (new_plant data TEXTS).
Proof.
  apply (bounded_core (default_plant data)); [apply new_plant_core |].
  unfold bounded, percent. simpl. lia.
Qed.

Lemma new_plant_counters : counters_in_range (new_plant data TEXTS).
Proof.
  apply (counters_core (default_plant data)); [apply new_plant_core |].
  unfold counters_in_range. simpl. lia.
Qed.

Lemma new_plant_seed : seed_at_day_0 (new_plant data TEXTS).
Proof.
  apply (seed_core (default_plant data)); [apply new_plant_core |].
  unfold seed_at_day_0. reflexivity.
Qed.

Lemma reachable_bounded p : reachable data TEXTS p -> bounded p.
Proof.
  apply reachable_preserve with (X := fun _ _ => True).
  - intros tape action. apply interact_bounded.
  - apply new_plant_bounded.
Qed.

Lemma reachable_counters p : reachable data TEXTS p -> counters_in_range p.
Proof.
  apply reachable_preserve with (X := fun _ => counters_in_range).
  - intros tape action. apply interact_counters.
  - apply new_plant_counters.
Qed.

Lemma reachable_seed p : reachable data TEXTS p -> seed_at_day_0 p.
Proof.
  apply reachable_preserve with (X := fun _ _ => True).
  - intros tape action. apply interact_seed.
  - apply new_plant_seed.
Qed.

End Sequences.

(** * The claims *)

(** ** Percentages (C1) *)

(** C1. From every reachable plant, after every finite sequence of
    [interact] calls that do not raise, and whatever the random draws,
    [moisture], [fertilizer] and [stress] lie in [0,100].  A sequence is
    arbitrary, so the bound holds after each of its calls. *)
Theorem percentages_stay_in_range {float} {FO : FloatOps float}
    (data : Species) (TEXTS : Texts) (p : @Plant float)
    (tape : nat -> Z) (actions : list string) (d : nat) (w' : World) :
  reachable data TEXTS p ->
  interacts tape data TEXTS actions {| plant := p; draws := d |} = Some w' ->
  0 <= moisture (plant w') <= 100
  /\ 0 <= fertilizer (plant w') <= 100
  /\ 0 <= stress (plant w') <= 100.
Proof.
  intros Hp Hrun.
  apply (interacts_preserve data TEXTS bounded (fun _ _ => True)
           (fun tape action => interact_bounded tape data TEXTS action)
           tape actions {| plant := p; draws := d |} w');
    [exact (reachable_bounded data TEXTS p Hp) | exact Hrun].
Qed.

Lemma percentages_stay_in_range_witness :
  let w' :=
    attempts sample_tape sample_species sample_texts sample_actions
      (world_of sample_new_plant) in
  0 <= moisture (plant w') <= 100
  /\ 0 <= fertilizer (plant w') <= 100
  /\ 0 <= stress (plant w') <= 100.
Proof.
  apply (percentages_stay_in_range sample_species sample_texts
           sample_new_plant sample_tape sample_actions 0).
  - exists (tape_of []), [], (world_of sample_new_plant).
    split; reflexivity.
  - vm_compute. reflexivity.
Defined.

(** ** The protective counters (C10) *)

(** C10. The counters [fungicide] and [fumigation] of a reachable plant lie
    in [0,5], and no [interact] call, whether it returns or raises, drives
    either of them outside [0,5]. *)
Theorem protective_counters_in_range {float} {FO : FloatOps float}
    (data : Species) (TEXTS : Texts) (p : @Plant float) :
  reachable data TEXTS p ->
  (0 <= fungicide p <= 5 /\ 0 <= fumigation p <= 5)
  /\ forall (tape : nat -> Z) (action : string) (d : nat),
       let p' := plant (snd (interact tape data TEXTS action
                               {| plant := p; draws := d |})) in
       0 <= fungicide p' <= 5 /\ 0 <= fumigation p' <= 5.
Proof.
  intros Hp. pose proof (reachable_counters data TEXTS p Hp) as Hc.
  split; [exact Hc |]. intros tape action d.
  apply (hoare_leaves counters_in_range
           (interact tape data TEXTS action) {| plant := p; draws := d |}
           (interact_counters tape data TEXTS action) Hc).
Qed.

Lemma protective_counters_in_range_witness :
  (0 <= fungicide sprayed_seed <= 5 /\ 0 <= fumigation sprayed_seed <= 5)
  /\ forall (tape : nat -> Z) (action : string) (d : nat),
       let p' := plant (snd (interact tape sample_species sample_texts action
                               {| plant := sprayed_seed; draws := d |})) in
       0 <= fungicide p' <= 5 /\ 0 <= fumigation p' <= 5.
Proof.
  apply (protective_counters_in_range sample_species sample_texts).
  exists (tape_of []), (repeat "fungicide" 9%nat),
    (attempts (tape_of []) sample_species sample_texts
       (repeat "fungicide" 9%nat) (world_of sample_new_plant)).
  split; vm_compute; reflexivity.
Defined.

(** ** The order of the stages (C6) *)

(** C6, as stated, fails: a seed that has been sprayed nine times is killed
    by one more fungicide, so DEAD is entered from SEED. *)
Lemma dead_from_seed :
  let call :=
    interact (tape_of []) sample_species sample_texts "fungicide"
      (world_of sprayed_seed) in
  reachable sample_species sample_texts sprayed_seed
  /\ status sprayed_seed = SEED
  /\ fst call = Return None
  /\ status (plant (snd call)) = DEAD.
Proof.
  split; [| repeat split; vm_compute; reflexivity].
  exists (tape_of []), (repeat "fungicide" 9%nat),
    (attempts (tape_of []) sample_species sample_texts
       (repeat "fungicide" 9%nat) (world_of sample_new_plant)).
  split; vm_compute; reflexivity.
Qed.

(** C6, amended. Across any number of [interact] calls, whether they return
    or raise, the stage does not move backward in SEED < PLANTED < PLANT <
    MATURE < YIELD and DEAD, once entered, is never left; DEAD is entered
    from a stage that has allowed actions (SEED, PLANTED, PLANT or MATURE),
    never from YIELD, where every call raises and changes nothing. *)
Theorem stage_never_moves_backward {float} {FO : FloatOps float}
    (tape : nat -> Z) (data : Species) (TEXTS : Texts) :
  (forall (actions : list string) (w : @World float),
     not_backward (status (plant w))
       (status (plant (attempts tape data TEXTS actions w))) = true)
  /\ (forall (action : string) (w : @World float),
        status (plant w) = YIELD ->
        snd (interact tape data TEXTS action w) = w).
Proof.
  split.
  - intros actions w.
    apply (attempts_preserve data TEXTS (ahead (status (plant w))) tape
             (interact_ahead tape data TEXTS (status (plant w)))).
    apply not_backward_refl.
  - intros action w Hy. unfold interact, bind, get. rewrite Hy. reflexivity.
Qed.

Lemma stage_never_moves_backward_witness :
  not_backward SEED
    (status (plant (attempts sample_tape sample_species sample_texts
                      sample_actions (world_of sample_new_plant)))) = true.
Proof.
  exact (proj1 (stage_never_moves_backward sample_tape sample_species
                  sample_texts) sample_actions (world_of sample_new_plant)).
Defined.

(** ** The age (C9) *)

Section Age.

Context {float : Type} {FO : FloatOps float}.
Variable tape : nat -> Z.
Variable data : @Species float.
Variable TEXTS : @Texts float.

Local Abbreviation triple := (@hoare float _).
Local Abbreviation anyhow := (fun (_ : Exception) (_ : @Plant float) => True).

Lemma age_core n (p p' : @Plant float) :
  core p' = core p -> age p = n -> age p' = n.
Proof. intros H. core_eq H. trivial. Qed.

Lemma perform_age n s action :
  triple (fun p => age p = n /\ status p = s) (perform tape action)
    (fun _ p => age p = n /\ status_eqb (status p) SEED = stays_seed s action)
    anyhow.
Proof.
  unfold perform, _plant_seed, _water, _fungicide, _fumigate, _fertilize,
    _add_stress, stays_seed.
  hoare_cases; destruct Hpre as [-> <-]; fields; trivial;
    repeat match goal with
           | H : (_ =? _)%string = true |- _ =>
               apply String.eqb_eq in H; subst action
           | H : (_ =? _)%string = false |- _ => rewrite H
           end;
    auto.
Qed.

Lemma not_seed_age n b :
  triple (fun p => age p = n /\ status_eqb (status p) SEED = b)
    end_day_not_seed (fun _ p => age p = n + (if b then 0 else 1)) anyhow.
Proof.
  unfold end_day_not_seed.
  hoare_cases; destruct Hpre as [-> <-]; fields; lia.
Qed.

Lemma evolve_age n :
  triple (fun p => age p = n) (_evolve data) (fun _ p => age p = n) anyhow.
Proof.
  unfold _evolve, _germinate, _mature, _yield. hoare_run; fields; trivial.
Qed.

Lemma consume_water_age n :
  triple (fun p => age p = n) (_consume_water tape) (fun _ p => age p = n)
    anyhow.
Proof. unfold _consume_water. hoare_run; fields; trivial. Qed.

Lemma calc_plant_stress_age n :
  triple
    (fun p => age p = n /\ status_in (status p) [PLANT; MATURE] = true)
    (_calc_plant_stress data) (fun _ p => age p = n) anyhow.
Proof.
  unfold _calc_plant_stress, _get_moisture_diff, _get_fertilizer_diff.
  hoare_run; fields; tauto.
Qed.

Lemma interact_age n s action :
  triple (fun p => age p = n /\ status p = s)
    (interact tape data TEXTS action)
    (fun _ p => age p = n + (if stays_seed s action then 0 else 1)) anyhow.
Proof.
  apply interact_rule
    with (I0 := fun p => age p = n
                         /\ status_eqb (status p) SEED = stays_seed s action)
         (I1 := fun p => age p = n + (if stays_seed s action then 0 else 1))
         (J := fun p => age p = n + (if stays_seed s action then 0 else 1));
    first [ exact (age_core _) | exact (not_seed_age n _)
          | exact (evolve_age _) | exact (consume_water_age _)
          | exact (calc_plant_stress_age _) | exact (perform_age n s action)
          | solve [trivial] ].
Qed.

(** The look of the new plant aside, it is the default plant. *)
Lemma new_plant_eq :
  new_plant data TEXTS =
  with_look (look (new_plant data TEXTS)) (default_plant data).
Proof. reflexivity. Qed.

Lemma plant_seed_on_new_plant d :
  threshold_day data 1 = false ->
  exists w',
    interact tape data TEXTS "plant seed"
      {| plant := new_plant data TEXTS; draws := d |} = (Return None, w')
    /\ status (plant w') = PLANTED /\ age (plant w') = 1.
Proof.
  unfold threshold_day. intros H.
  apply orb_false_elim in H as [H Hy]. apply orb_false_elim in H as [Hg Hm].
  rewrite new_plant_eq. generalize (look (new_plant data TEXTS)). intros l.
  destruct (wp_total (interact tape data TEXTS "plant seed")
              (fun v w' => v = None /\ status (plant w') = PLANTED
                           /\ age (plant w') = 1)
              {| plant := with_look l (default_plant data); draws := d |})
    as (v & w' & Hrun & -> & Hs & Ha).
  - unfold interact, perform, _plant_seed, _end_day, end_day_until_stress,
      end_day_not_seed, _evolve, _consume_water, _update_look, default_plant.
    allowed. wp_step. wp_step. allowed.
    repeat (wp_step; change (0 + 1) with 1; rewrite ?Hg, ?Hm, ?Hy);
      solve [auto | exfalso; lia].
  - eauto.
Qed.

End Age.

(** ** Runs *)

Section Runs.

Context {float : Type} {FO : FloatOps float}.
Variable tape : nat -> Z.
Variable data : @Species float.
Variable TEXTS : @Texts float.

Local Abbreviation triple := (@hoare float _).

Lemma bind_returns {A B} (m : @M float A) (k : A -> M B) w a w' :
  m w = (Return a, w') -> bind m k w = k a w'.
Proof. unfold bind. intros ->. reflexivity. Qed.

(** A run that is known is used in the middle of a method. *)
Lemma wp_known {A} (m : @M float A) (Q : A -> World -> Prop) E w a w' :
  m w = (Return a, w') -> Q a w' -> wp m Q E w.
Proof. unfold wp. intros ->. trivial. Qed.

Lemma str_in_In x l : str_in x l = true -> In x l.
Proof.
  unfold str_in. intros H. apply existsb_exists in H as (y & Hy & Heq).
  apply String.eqb_eq in Heq. subst y. exact Hy.
Qed.

(** *** The validation of the action *)

Lemma interact_allowed action (w : @World float) l :
  STATUS_ACTIONS (status (plant w)) = Some l ->
  str_in action l = true ->
  interact tape data TEXTS action w =
  (perform tape action ;; _end_day tape data TEXTS ;; ret None) w.
Proof.
  intros Hl Hin. unfold interact at 1, bind at 1, get. rewrite Hl.
  destruct l as [| a0 l]; [discriminate |]. rewrite Hin. reflexivity.
Qed.

Lemma interact_invalid action (w : @World float) l :
  STATUS_ACTIONS (status (plant w)) = Some l ->
  str_in action l = false ->
  exists msg,
    interact tape data TEXTS action w = (Raise (NotImplementedError msg), w).
Proof.
  intros Hl Hin. unfold interact, bind, get. rewrite Hl.
  destruct l as [| a0 l]; [eexists; reflexivity |].
  rewrite Hin. eexists; reflexivity.
Qed.

Lemma interact_no_entry action (w : @World float) :
  STATUS_ACTIONS (status (plant w)) = None ->
  interact tape data TEXTS action w = (Raise (KeyError (status (plant w))), w).
Proof. intros Hl. unfold interact, bind, get. rewrite Hl. reflexivity. Qed.

(** An allowed action is performed without an exception: [_plant_seed] is
    only reached on a seed. *)
Lemma perform_allowed action (w : @World float) l :
  STATUS_ACTIONS (status (plant w)) = Some l ->
  str_in action l = true ->
  exists w0, perform tape action w = (Return tt, w0).
Proof.
  intros Hl Hin. apply str_in_In in Hin.
  destruct (wp_total (perform tape action) (fun _ _ => True) w)
    as ([] & w0 & Hrun & _); [| eauto].
  destruct w as [[? ? ? ? st ? ? ? ? ? ? ? ? ? ?] ?]. fields.
  destruct st; simpl in Hl; inversion Hl; subst l; simpl in Hin;
    repeat match goal with
           | H : _ \/ _ |- _ => destruct H as [<- | H]
           | H : False |- _ => destruct H
           end;
    unfold perform, _plant_seed, _water, _fungicide, _fumigate, _fertilize,
      _add_stress;
    allowed; wp_run; trivial.
Qed.

(** *** The first block of the day *)

Lemma not_seed_returns (w : @World float) :
  exists w1, end_day_not_seed w = (Return tt, w1).
Proof.
  destruct (wp_total end_day_not_seed (fun _ _ => True) w)
    as ([] & w1 & Hrun & _); [| eauto].
  unfold end_day_not_seed. wp_run; trivial.
Qed.

Lemma not_seed_plant (p0 : @Plant float) :
  triple (fun p => p = p0) end_day_not_seed
    (fun _ p => p = plant (snd (end_day_not_seed (world_of p0))))
    (fun _ _ => False).
Proof.
  intros w Hw. subst p0. unfold end_day_not_seed, world_of.
  wp_run; unfold bind, get, update, ret; fields;
    match goal with H : _ = _ |- _ => rewrite H end; reflexivity.
Qed.

End Runs.

(** ** Calls that raise *)

Section Failures.

Context {float : Type} {FO : FloatOps float}.
Variable tape : nat -> Z.
Variable data : @Species float.
Variable TEXTS : @Texts float.

Local Abbreviation triple := (@hoare float _).

Lemma evolve_raises_early p1 :
  triple (fun p => p = p1) (_evolve data) (fun _ _ => True)
    (fault_or_evolution p1).
Proof.
  unfold _evolve, _germinate, _mature, _yield.
  hoare_run; trivial; right; split; trivial.
Qed.

Lemma end_day_raises p0 :
  triple (fun p => p = p0) (_end_day tape data TEXTS) (fun _ _ => True)
    (fault_or_evolution (plant (snd (end_day_not_seed (world_of p0))))).
Proof.
  apply end_day_rule
    with (I1 := fun p => p = plant (snd (end_day_not_seed (world_of p0))))
         (J := fun _ => True);
    try solve [trivial | intros; left; trivial].
  - eapply hoare_weaken; [apply (not_seed_plant p0) | | |]; cbv beta;
      [trivial | trivial | contradiction].
  - apply evolve_raises_early.
  - unfold _consume_water. hoare_run; trivial.
  - unfold _calc_plant_stress, _get_moisture_diff, _get_fertilizer_diff.
    hoare_run; trivial; left; reflexivity.
Qed.

End Failures.

(** ** Invalid actions (C2) *)

(** C2, on the plant that fails it.  A dead plant is reachable (ten doses of
    fungicide on a seed), [STATUS_ACTIONS] has no entry for its status, and
    [interact] raises [KeyError] on it, not [NotImplementedError]; the plant
    is left as it was. *)
Example dead_plant_raises_KeyError :
  status dead_seed = DEAD
  /\ interact (tape_of []) sample_species sample_texts "wait"
       (world_of dead_seed)
     = (Raise (KeyError DEAD), world_of dead_seed).
Proof. split; vm_compute; reflexivity. Qed.

(** ** Calls that raise leave the plant as it was (C3) *)

(** C3, as stated, fails: on a planted seed that reaches the day of maturity
    the call raises [ValueError] after the fertilizer was added and the day
    was counted. *)
Lemma failed_call_changes_plant :
  let call :=
    interact (tape_of []) sample_species sample_texts "fertilize"
      (world_of stray_plant) in
  fst call
  = Raise (ValueError
      "Error! To mature and start flowering, status should be plant")
  /\ fertilizer stray_plant = 0 /\ fertilizer (plant (snd call)) = 9
  /\ age stray_plant = 9 /\ age (plant (snd call)) = 10.
Proof. repeat split; vm_compute; reflexivity. Qed.

(** C3, amended. A call that fails with [NotImplementedError] leaves every
    field as it was.  A call that fails with [ValueError] leaves the plant
    as the action and the first block of the day made it: what they wrote
    is not undone. *)
Theorem failed_call_leaves {float} {FO : FloatOps float}
    (tape : nat -> Z) (data : Species) (TEXTS : Texts) (action : string)
    (w w' : @World float) (e : Exception) :
  interact tape data TEXTS action w = (Raise e, w') ->
  (is_NotImplementedError e = true -> w' = w)
  /\ (is_ValueError e = true ->
      exists w0 w1,
        perform tape action w = (Return tt, w0)
        /\ end_day_not_seed w0 = (Return tt, w1)
        /\ plant w' = plant w1).
Proof.
  intros Hcall.
  destruct (STATUS_ACTIONS (status (plant w))) as [l |] eqn:Hl.
  2: { rewrite (interact_no_entry tape data TEXTS action w Hl) in Hcall.
       inversion Hcall; subst. split; discriminate. }
  destruct (str_in action l) eqn:Hin.
  2: { destruct (interact_invalid tape data TEXTS action w l Hl Hin)
         as [msg Hmsg].
       rewrite Hmsg in Hcall. inversion Hcall; subst.
       split; [reflexivity | discriminate]. }
  rewrite (interact_allowed tape data TEXTS action w l Hl Hin) in Hcall.
  destruct (perform_allowed tape action w l Hl Hin) as [w0 Hperform].
  rewrite (bind_returns _ _ _ _ _ Hperform) in Hcall.
  pose proof (end_day_raises tape data TEXTS (plant w0) w0 eq_refl) as Hday.
  unfold wp in Hday. unfold bind in Hcall.
  destruct (_end_day tape data TEXTS w0) as [[[] | e1] w2];
    [discriminate |].
  inversion Hcall; subst e1 w2. clear Hcall.
  destruct (not_seed_returns w0) as [w1 Hw1].
  destruct Hday as [Hfault | [Hvalue Hplant]].
  - destruct e; try discriminate; split; discriminate.
  - split.
    + intros He. destruct e; discriminate.
    + intros _. exists w0, w1. repeat split; trivial.
      rewrite Hplant. symmetry.
      exact (hoare_returns _ _ _ _ _ _ _
               (not_seed_plant (plant w0))
               eq_refl Hw1).
Qed.

Lemma failed_call_leaves_witness :
  let w := world_of stray_plant in
  let e := ValueError
             "Error! To mature and start flowering, status should be plant" in
  let w' := snd (interact (tape_of []) sample_species sample_texts
                   "fertilize" w) in
  (is_NotImplementedError e = true -> w' = w)
  /\ (is_ValueError e = true ->
      exists w0 w1,
        perform (tape_of []) "fertilize" w = (Return tt, w0)
        /\ end_day_not_seed w0 = (Return tt, w1)
        /\ plant w' = plant w1).
Proof.
  intros w e w'.
  apply (failed_call_leaves (tape_of []) sample_species sample_texts
           "fertilize" w w' e).
  vm_compute. reflexivity.
Defined.

(** ** The value returned (C4) *)

(** A call that returns, returns [None]. *)
Lemma interact_value {float} {FO : FloatOps float}
    (tape : nat -> Z) (data : Species) (TEXTS : Texts) (action : string)
    (w w' : @World float) (v : option string) :
  interact tape data TEXTS action w = (Return v, w') -> v = None.
Proof.
  unfold interact, bind, get, raise, ret.
  destruct (STATUS_ACTIONS (status (plant w))) as [[| a0 l] |];
    try discriminate.
  destruct (negb (str_in action (a0 :: l))); [discriminate |].
  destruct (perform tape action w) as [[[] | e] w0]; [| discriminate].
  destruct (_end_day tape data TEXTS w0) as [[[] | e] w1];
    [| discriminate].
  intros H. inversion H. reflexivity.
Qed.

(** C4, on a call that fails it.  Planting the seed of a new plant returns
    Python's [None]; the description of the new state is stored in [look]
    and is not the value returned. *)
Example interact_returns_None :
  let call :=
    interact (tape_of []) sample_species sample_texts "plant seed"
      (world_of sample_new_plant) in
  fst call = Return None
  /\ look (plant (snd call))
     = String.concat ". "
         ["Day 1"; "The seed is in the soil"; "Soil moisture level 1";
          "Moisture: 0%"; "Fertilizer: 0%"].
Proof. split; vm_compute; reflexivity. Qed.

(** ** The first block of the day (C5) *)

(** C5, as stated, fails: the first block of the day takes one point of
    fertilizer from a planted seed. *)
Lemma fertilizer_decays :
  reachable sample_species sample_texts fertilized_seed
  /\ status fertilized_seed = PLANTED
  /\ fertilizer fertilized_seed = 9
  /\ fertilizer (plant (snd (end_day_not_seed (world_of fertilized_seed))))
     = 8.
Proof.
  split; [| repeat split; vm_compute; reflexivity].
  exists (tape_of []), ["fertilize"; "plant seed"],
    (attempts (tape_of []) sample_species sample_texts
       ["fertilize"; "plant seed"] (world_of sample_new_plant)).
  split; vm_compute; reflexivity.
Qed.

(** C5, amended. When the plant is not a seed, the first block of the day
    adds 1 to [age] and takes 1 from each of [fungicide], [fumigation] and
    [fertilizer], with a floor of 0; it writes nothing else. *)
Theorem day_starts_with_decay {float} (w : @World float) :
  status (plant w) <> SEED ->
  0 <= fungicide (plant w) ->
  0 <= fumigation (plant w) ->
  0 <= fertilizer (plant w) ->
  exists w',
    end_day_not_seed w = (Return tt, w')
    /\ draws w' = draws w
    /\ age (plant w') = age (plant w) + 1
    /\ fungicide (plant w') = Z.max (fungicide (plant w) - 1) 0
    /\ fumigation (plant w') = Z.max (fumigation (plant w) - 1) 0
    /\ fertilizer (plant w') = Z.max (fertilizer (plant w) - 1) 0
    /\ with_age (age (plant w))
         (with_fungicide (fungicide (plant w))
            (with_fumigation (fumigation (plant w))
               (with_fertilizer (fertilizer (plant w)) (plant w'))))
       = plant w.
Proof.
  destruct w as [[? ? ? ? st ? ? ? ? ? ? ? ? ? ?] ?]. fields.
  intros Hst Hfungicide Hfumigation Hfertilizer.
  unfold end_day_not_seed, bind, get, update, ret. fields.
  destruct st; try contradiction; fields;
    (eexists; split; [reflexivity |]); fields;
    repeat match goal with
           | |- context [if ?c then _ else _] => destruct c eqn:?
           end;
    repeat split; try reflexivity; lia.
Qed.

Lemma day_starts_with_decay_witness :
  let w := world_of fertilized_seed in
  exists w',
    end_day_not_seed w = (Return tt, w')
    /\ draws w' = draws w
    /\ age (plant w') = age (plant w) + 1
    /\ fungicide (plant w') = Z.max (fungicide (plant w) - 1) 0
    /\ fumigation (plant w') = Z.max (fumigation (plant w) - 1) 0
    /\ fertilizer (plant w') = Z.max (fertilizer (plant w) - 1) 0
    /\ with_age (age (plant w))
         (with_fungicide (fungicide (plant w))
            (with_fumigation (fumigation (plant w))
               (with_fertilizer (fertilizer (plant w)) (plant w'))))
       = plant w.
Proof.
  intros w. apply (day_starts_with_decay w); vm_compute; discriminate.
Defined.

(** ** Death (C7) *)

(** C7. In a call whose action is allowed, if the day reaches the end of the
    stress recalculation with a stress above 99, the call returns and leaves
    the plant in status DEAD with [dead] set, whatever the stage evolution
    did before. *)
Theorem stress_above_99_kills {float} {FO : FloatOps float}
    (tape : nat -> Z) (data : Species) (TEXTS : Texts) (action : string)
    (l : list string) (w w0 w1 : @World float) :
  STATUS_ACTIONS (status (plant w)) = Some l ->
  str_in action l = true ->
  perform tape action w = (Return tt, w0) ->
  end_day_until_stress tape data w0 = (Return tt, w1) ->
  stress (plant w1) > 99 ->
  exists w2,
    interact tape data TEXTS action w = (Return None, w2)
    /\ status (plant w2) = DEAD /\ dead (plant w2) = true.
Proof.
  intros Hl Hin Hperform Hday Hstress.
  rewrite (interact_allowed tape data TEXTS action w l Hl Hin).
  destruct (wp_total
              (perform tape action ;; _end_day tape data TEXTS ;;
               ret (@None string))
              (fun v w2 => v = None /\ status (plant w2) = DEAD
                           /\ dead (plant w2) = true) w)
    as (v & w2 & Hrun & -> & Hdead); [| eauto].
  apply wp_bind. apply (wp_known _ _ _ _ _ _ Hperform).
  unfold _end_day. apply wp_bind, wp_bind.
  apply (wp_known _ _ _ _ _ _ Hday).
  unfold _kill, _update_look. wp_run; auto; lia.
Qed.

Lemma stress_above_99_kills_witness :
  exists w2,
    interact (tape_of []) sample_species sample_texts "fungicide"
      (world_of sprayed_seed) = (Return None, w2)
    /\ status (plant w2) = DEAD /\ dead (plant w2) = true.
Proof.
  apply (stress_above_99_kills (tape_of []) sample_species sample_texts
           "fungicide"
           [ACTIONS.PLANT_SEED; ACTIONS.FUNGICIDE; ACTIONS.FUMIGATE;
            ACTIONS.FERTILIZE]
           (world_of sprayed_seed)
           (snd (perform (tape_of []) "fungicide" (world_of sprayed_seed)))
           (snd (end_day_until_stress (tape_of []) sample_species
                   (snd (perform (tape_of []) "fungicide"
                           (world_of sprayed_seed)))))).
  - vm_compute. reflexivity.
  - vm_compute. reflexivity.
  - vm_compute. reflexivity.
  - vm_compute. reflexivity.
  - vm_compute. reflexivity.
Defined.

(** ** Germination (C8) *)

Section Germination.

Context {float : Type} {FO : FloatOps float}.
Variable tape : nat -> Z.
Variable data : @Species float.

Local Abbreviation triple := (@hoare float _).
Local Abbreviation anyhow := (fun (_ : Exception) (_ : @Plant float) => True).

Ltac leaf :=
  unfold bounded, settling, percent in *; fields;
  repeat match goal with
         | |- context [if ?c then _ else _] => destruct c eqn:?
         end;
  try tauto; try congruence; try (intuition (congruence || lia)).

(** The day on which a planted seed reaches the age of germination ends, at
    the recalculation of the stress, with a growing plant whose stress is a
    percentage. *)
Lemma germination_day_stress :
  triple
    (fun p => bounded p /\ status p = PLANTED
              /\ age p + 1 = germination (evolution data))
    (end_day_until_stress tape data)
    (fun _ p => bounded p /\ status p = PLANT) anyhow.
Proof.
  apply until_stress_rule
    with (I1 := fun p => bounded p /\ status p = PLANTED
                         /\ age p = germination (evolution data))
         (J := fun p => settling p /\ status p = PLANT);
    try solve [trivial].
  - intros p p' Hcore [Hs Hst]. split.
    + exact (settling_core p p' Hcore Hs).
    + rewrite (status_core p p' Hcore). exact Hst.
  - unfold end_day_not_seed. hoare_cases; leaf.
  - unfold _evolve, _germinate, _mature, _yield. hoare_cases; leaf.
  - unfold _consume_water. hoare_run; leaf.
  - unfold _calc_plant_stress, _get_moisture_diff, _get_fertilizer_diff.
    hoare_run; leaf.
  - intros p [_ Hst]. rewrite Hst. discriminate.
Qed.

End Germination.

(** C8, as stated, fails: on the morning of its germination the tended
    seed has a stress of 90 and a moisture of 90, and the stage evolution
    leaves it with a stress of 130.  The excess is not lost: the day ends
    with 130 - 10 clamped to 100 and the plant dies, where a cap at the
    germination would have left 100 - 10 = 90. *)
Lemma germination_exceeds_100 :
  let evolved := _evolve sample_species germination_morning in
  let call :=
    interact germination_tape sample_species sample_texts "water"
      germination_eve in
  status (plant germination_morning) = PLANTED
  /\ age (plant germination_morning) = germination (evolution sample_species)
  /\ stress (plant germination_morning) = 90
  /\ moisture (plant germination_morning) = 90
  /\ fst evolved = Return tt
  /\ status (plant (snd evolved)) = PLANT
  /\ stress (plant (snd evolved)) = 130
  /\ fst call = Return None
  /\ moisture (plant (snd call)) = 70
  /\ status (plant (snd call)) = DEAD.
Proof. repeat split; vm_compute; reflexivity. Qed.

(** C8, amended. When the germination fires, the stress is increased by
    |moisture - ideal_moisture| with no cap at that step; it is the
    recalculation of the stress, later in the same day, that brings it back
    into [0,100]. *)
Theorem germination_adds_uncapped_stress {float} {FO : FloatOps float}
    (data : Species) :
  (forall w : @World float,
     status (plant w) = PLANTED ->
     age (plant w) = germination (evolution data) ->
     _evolve data w
     = (Return tt,
        {| plant :=
             with_stress
               (stress (plant w)
                + Z.abs (moisture (plant w) - ideal_moisture data))
               (with_status PLANT (plant w));
           draws := draws w |}))
  /\ (forall (tape : nat -> Z) (w0 w1 : @World float),
        bounded (plant w0) ->
        status (plant w0) = PLANTED ->
        age (plant w0) + 1 = germination (evolution data) ->
        end_day_until_stress tape data w0 = (Return tt, w1) ->
        status (plant w1) = PLANT /\ 0 <= stress (plant w1) <= 100).
Proof.
  split.
  - intros w Hst Hage.
    unfold _evolve, _germinate, bind, get, update.
    rewrite Hage, Z.eqb_refl, Hst. reflexivity.
  - intros tape w0 w1 Hb Hst Hage Hday.
    destruct (hoare_returns _ _ _ _ _ _ _
                (germination_day_stress tape data)
                (conj Hb (conj Hst Hage)) Hday) as [[_ [_ Hs]] Hplant].
    split; [exact Hplant | exact Hs].
Qed.

Lemma germination_adds_uncapped_stress_witness :
  let w := germination_morning in
  _evolve sample_species w
  = (Return tt,
     {| plant :=
          with_stress
            (stress (plant w)
             + Z.abs (moisture (plant w) - ideal_moisture sample_species))
            (with_status PLANT (plant w));
        draws := draws w |}).
Proof.
  intros w.
  apply (proj1 (germination_adds_uncapped_stress sample_species) w);
    vm_compute; reflexivity.
Defined.

(** ** The age (C9) *)

(** C9. In a call that returns, [age] stays 0 when the plant is a seed and
    the action leaves it a seed, and grows by exactly 1 otherwise: the test
    [status != SEED] of the day reads the status that the action left.  In
    particular, unless day 1 is a day on which the species changes stage,
    planting the seed of a new plant leaves it PLANTED with an age of 1. *)
Theorem age_counts_days {float} {FO : FloatOps float}
    (data : Species) (TEXTS : Texts) :
  (forall (p : @Plant float) (tape : nat -> Z) (action : string) (d : nat)
          (v : option string) (w' : World),
     reachable data TEXTS p ->
     interact tape data TEXTS action {| plant := p; draws := d |}
     = (Return v, w') ->
     if stays_seed (status p) action
     then age p = 0 /\ age (plant w') = 0
     else age (plant w') = age p + 1)
  /\ (threshold_day data 1 = false ->
      forall (tape : nat -> Z) (d : nat),
      exists w',
        interact tape data TEXTS "plant seed"
          {| plant := new_plant data TEXTS; draws := d |} = (Return None, w')
        /\ status (plant w') = PLANTED /\ age (plant w') = 1).
Proof.
  split.
  - intros p tape action d v w' Hp Hcall.
    pose proof (wp_returns _ _ _ _ _ _
                  (interact_age tape data TEXTS (age p) (status p) action
                     {| plant := p; draws := d |} (conj eq_refl eq_refl))
                  Hcall) as Hage.
    cbv beta in Hage.
    destruct (stays_seed (status p) action) eqn:Hstay; [| exact Hage].
    assert (H0 : age p = 0).
    { apply (reachable_seed data TEXTS p Hp).
      unfold stays_seed in Hstay. apply andb_prop in Hstay as [Hs _].
      destruct (status p); try discriminate. reflexivity. }
    split; [exact H0 | lia].
  - intros Hday tape d. apply plant_seed_on_new_plant, Hday.
Qed.

Lemma age_counts_days_witness :
  (let call :=
     interact sample_tape sample_species sample_texts "fertilize"
       {| plant := sample_new_plant; draws := 0 |} in
   if stays_seed (status sample_new_plant) "fertilize"
   then age sample_new_plant = 0 /\ age (plant (snd call)) = 0
   else age (plant (snd call)) = age sample_new_plant + 1)
  /\ exists w',
       interact sample_tape sample_species sample_texts "plant seed"
         {| plant := new_plant sample_species sample_texts; draws := 0 |}
       = (Return None, w')
       /\ status (plant w') = PLANTED /\ age (plant w') = 1.
Proof.
  split.
  - apply (proj1 (age_counts_days sample_species sample_texts)
             sample_new_plant sample_tape "fertilize" 0%nat None).
    + exists (tape_of []), [], (world_of sample_new_plant).
      split; reflexivity.
    + vm_compute. reflexivity.
  - apply (proj2 (age_counts_days sample_species sample_texts)).
    reflexivity.
Defined.

(** * Further properties of the engine *)

(** ** The blocks of a call, one by one

    The rule of the day again, with an assertion of its own between any two
    blocks, for the properties that read [fungi], [plague], [flowers] or
    [look], and for those that need the call to return. *)

Section Blocks.

Context {float : Type} {FO : FloatOps float}.
Variable tape : nat -> Z.
Variable data : @Species float.
Variable TEXTS : @Texts float.

Local Abbreviation triple := (@hoare float _).

Lemma status_eqb_eq (s s' : Status) : status_eqb s s' = true -> s = s'.
Proof. destruct s, s'; simpl; congruence. Qed.

Variables P A B C J J1 J2 K L I : @Plant float -> Prop.
Variable X : Exception -> @Plant float -> Prop.
Variable action : string.

Hypothesis perform_ok :
  triple (fun p => P p /\ allowed_action (status p) action = true)
    (perform tape action) (fun _ => A) X.
Hypothesis not_seed_ok : triple A end_day_not_seed (fun _ => B) X.
Hypothesis evolve_ok : triple B (_evolve data) (fun _ => C) X.
Hypothesis consume_water_ok : triple C (_consume_water tape) (fun _ => J) X.
Hypothesis grow_ok :
  triple (fun p => J p /\ status p = PLANT) (_grow data) (fun _ => J) X.
Hypothesis blossom_ok :
  triple (fun p => J p /\ status p = MATURE) (_blossom tape data)
    (fun _ => J) X.
Hypothesis roll_fungi_ok :
  triple (fun p => J p /\ status_in (status p) [PLANT; MATURE] = true)
    (_roll_fungi tape data) (fun _ => J1) X.
Hypothesis roll_plague_ok :
  triple J1 (_roll_plague tape data) (fun _ => J2) X.
Hypothesis calc_plant_stress_ok :
  triple J2 (_calc_plant_stress data) (fun _ => K) X.
Hypothesis no_stress_ok :
  forall p, J p -> status_in (status p) [PLANT; MATURE] = false -> K p.
Hypothesis kill_ok :
  forall p, K p -> stress p > 99 -> L (with_dead true (with_status DEAD p)).
Hypothesis no_kill_ok : forall p, K p -> stress p <= 99 -> L p.
Hypothesis update_look_ok :
  triple L (_update_look data TEXTS) (fun _ => I) X.

Lemma day_rule : triple A (_end_day tape data TEXTS) (fun _ => I) X.
Proof.
  unfold _end_day.
  eapply hoare_bind with (R := fun _ => K).
  - unfold end_day_until_stress.
    eapply hoare_bind; [apply not_seed_ok | intros []; cbv beta].
    eapply hoare_bind; [apply evolve_ok | intros []; cbv beta].
    eapply hoare_bind; [apply consume_water_ok | intros []; cbv beta].
    eapply hoare_bind with (R := fun _ => J).
    { intros w HJ. apply wp_bind, wp_get.
      destruct (status_eqb (status (plant w)) PLANT) eqn:Hs.
      - apply grow_ok. split; [exact HJ | apply status_eqb_eq, Hs].
      - apply wp_ret, HJ. }
    intros []; cbv beta.
    eapply hoare_bind with (R := fun _ => J).
    { intros w HJ. apply wp_bind, wp_get.
      destruct (status_eqb (status (plant w)) MATURE) eqn:Hs.
      - apply blossom_ok. split; [exact HJ | apply status_eqb_eq, Hs].
      - apply wp_ret, HJ. }
    intros []; cbv beta.
    intros w HJ. apply wp_bind, wp_get.
    destruct (status_in (status (plant w)) [PLANT; MATURE]) eqn:Hin.
    + revert w HJ Hin.
      assert (Hrolls :
        triple
          (fun p => J p /\ status_in (status p) [PLANT; MATURE] = true)
          (_roll_fungi tape data ;; _roll_plague tape data ;;
           _calc_plant_stress data) (fun _ => K) X).
      { eapply hoare_bind; [apply roll_fungi_ok | intros []; cbv beta].
        eapply hoare_bind; [apply roll_plague_ok | intros []; cbv beta].
        apply calc_plant_stress_ok. }
      intros w HJ Hin. apply Hrolls. split; assumption.
    + apply wp_ret. apply no_stress_ok; assumption.
  - intros []; cbv beta.
    eapply hoare_bind with (R := fun _ => L);
      [| intros []; cbv beta; apply update_look_ok].
    intros w HK. apply wp_bind, wp_get.
    destruct (stress (plant w) >? 99) eqn:Hs.
    + unfold _kill. wp_run. apply kill_ok; [exact HK | lia].
    + apply wp_ret. apply no_kill_ok; [exact HK | lia].
Qed.

(** A call whose action is allowed. *)
Lemma allowed_call_rule :
  triple (fun p => P p /\ allowed_action (status p) action = true)
    (interact tape data TEXTS action) (fun _ => I) X.
Proof.
  intros w [HP Hallowed]. unfold allowed_action in Hallowed.
  destruct (STATUS_ACTIONS (status (plant w))) as [l |] eqn:Hl;
    [| discriminate].
  unfold wp.
  rewrite (interact_allowed tape data TEXTS action w l Hl Hallowed).
  change (wp (perform tape action ;; _end_day tape data TEXTS ;;
             ret (@None string))
            (fun _ w' => I (plant w')) (fun e w' => X e (plant w')) w).
  apply wp_bind.
  eapply wp_call; [apply perform_ok | | | trivial].
  - split; [exact HP |]. unfold allowed_action. rewrite Hl. exact Hallowed.
  - intros [] w0 HA. apply wp_bind.
    eapply wp_call; [apply day_rule | exact HA | | trivial].
    intros [] w1 HI. apply wp_ret. exact HI.
Qed.

(** Any call: one that is not allowed raises and leaves the plant. *)
Hypothesis rejected_ok :
  forall e p,
    P p -> table_fault e = true \/ is_NotImplementedError e = true -> X e p.

Lemma call_rule : triple P (interact tape data TEXTS action) (fun _ => I) X.
Proof.
  intros w HP.
  destruct (allowed_action (status (plant w)) action) eqn:Hallowed.
  - apply allowed_call_rule. split; assumption.
  - unfold allowed_action in Hallowed. unfold wp.
    destruct (STATUS_ACTIONS (status (plant w))) as [l |] eqn:Hl.
    + destruct (interact_invalid tape data TEXTS action w l Hl Hallowed)
        as [msg ->].
      apply rejected_ok; [exact HP | right; reflexivity].
    + rewrite (interact_no_entry tape data TEXTS action w Hl).
      apply rejected_ok; [exact HP | left; reflexivity].
Qed.

End Blocks.

(** A call that returns had an allowed action. *)
Lemma returns_allowed {float} {FO : FloatOps float} (tape : nat -> Z)
    (data : Species) (TEXTS : Texts) (action : string) (w w' : @World float)
    (v : option string) :
  interact tape data TEXTS action w = (Return v, w') ->
  allowed_action (status (plant w)) action = true.
Proof.
  intros Hcall. unfold allowed_action.
  destruct (STATUS_ACTIONS (status (plant w))) as [l |] eqn:Hl.
  - destruct (str_in action l) eqn:Hin; [reflexivity |].
    destruct (interact_invalid tape data TEXTS action w l Hl Hin)
      as [msg Hmsg].
    congruence.
  - rewrite (interact_no_entry tape data TEXTS action w Hl) in Hcall.
    discriminate.
Qed.

(** ** The blocks of a call, for a property of the core

    The grower, the flowers, the rolls and the description leave the core
    alone: a property of the core is settled by the other blocks. *)

Section CoreBlocks.

Context {float : Type} {FO : FloatOps float}.
Variable tape : nat -> Z.
Variable data : @Species float.
Variable TEXTS : @Texts float.

Local Abbreviation triple := (@hoare float _).
Local Abbreviation anyhow := (fun (_ : Exception) (_ : @Plant float) => True).

(** Writing the core alone keeps what is said of the core alone. *)
Lemma core_frame {A} (m : @M float A) (Pre Post : @Plant float -> Prop) :
  keeps_core m ->
  (forall p p', core p' = core p -> Pre p -> Post p') ->
  triple Pre m (fun _ => Post) anyhow.
Proof.
  intros Hm Hcore w Hpre.
  eapply wp_mono; [apply (Hm (core (plant w)) w eq_refl) | |];
    cbv beta; eauto.
Qed.

Variables P A B C J K I : @Plant float -> Prop.
Variable action : string.

Hypothesis J_core : forall p p', core p' = core p -> J p -> J p'.
Hypothesis I_core : forall p p', core p' = core p -> I p -> I p'.
Hypothesis perform_ok :
  triple (fun p => P p /\ allowed_action (status p) action = true)
    (perform tape action) (fun _ => A) anyhow.
Hypothesis not_seed_ok : triple A end_day_not_seed (fun _ => B) anyhow.
Hypothesis evolve_ok : triple B (_evolve data) (fun _ => C) anyhow.
Hypothesis consume_water_ok :
  triple C (_consume_water tape) (fun _ => J) anyhow.
Hypothesis calc_plant_stress_ok :
  triple (fun p => J p /\ status_in (status p) [PLANT; MATURE] = true)
    (_calc_plant_stress data) (fun _ => K) anyhow.
Hypothesis no_stress_ok :
  forall p, J p -> status_in (status p) [PLANT; MATURE] = false -> K p.
Hypothesis kill_ok :
  forall p, K p -> stress p > 99 -> I (with_dead true (with_status DEAD p)).
Hypothesis no_kill_ok : forall p, K p -> stress p <= 99 -> I p.

Lemma core_call_rule :
  triple P (interact tape data TEXTS action) (fun _ => I) anyhow.
Proof.
  apply call_rule
    with (A := A) (B := B) (C := C) (J := J)
         (J1 := fun p => J p /\ status_in (status p) [PLANT; MATURE] = true)
         (J2 := fun p => J p /\ status_in (status p) [PLANT; MATURE] = true)
         (K := K) (L := I);
    try solve [trivial | assumption].
  - apply core_frame; [apply grow_keeps_core |].
    intros p p' Hc [Hp _]. exact (J_core p p' Hc Hp).
  - apply core_frame; [apply blossom_keeps_core |].
    intros p p' Hc [Hp _]. exact (J_core p p' Hc Hp).
  - apply core_frame; [apply roll_fungi_keeps_core |].
    intros p p' Hc [Hp Hin]. split; [exact (J_core p p' Hc Hp) |].
    rewrite (status_core p p' Hc). exact Hin.
  - apply core_frame; [apply roll_plague_keeps_core |].
    intros p p' Hc [Hp Hin]. split; [exact (J_core p p' Hc Hp) |].
    rewrite (status_core p p' Hc). exact Hin.
  - apply core_frame; [apply update_look_keeps_core |]. exact I_core.
Qed.

End CoreBlocks.

(** ** A plant keeps to the schedule of its species *)

Section Schedule.

Context {float : Type} {FO : FloatOps float}.
Variable tape : nat -> Z.
Variable data : @Species float.
Variable TEXTS : @Texts float.
Hypothesis thresholds : ordered_thresholds data.

Local Abbreviation triple := (@hoare float _).
Local Abbreviation never := (fun (_ : Exception) (_ : @Plant float) => False).
Local Abbreviation anyhow := (fun (_ : Exception) (_ : @Plant float) => True).

Ltac schedule :=
  unfold on_schedule, at_dawn, due, ordered_thresholds, complete_tables
    in *;
  fields;
  try discriminate; try contradiction; try congruence; try lia;
  try (intuition (congruence || lia)).

(** By cases on the status and on the allowed action. *)
Ltac allowed_cases Ha :=
  unfold allowed_action in Ha; cbn [STATUS_ACTIONS] in Ha;
  try discriminate Ha;
  apply str_in_In in Ha; simpl in Ha;
  repeat match goal with
         | H : _ \/ _ |- _ => destruct H as [<- | H]
         | H : False |- _ => destruct H
         end.

Lemma on_schedule_core (p p' : @Plant float) :
  core p' = core p -> on_schedule data p -> on_schedule data p'.
Proof. intros H. unfold on_schedule. core_eq H. trivial. Qed.

Lemma perform_schedule action :
  triple
    (fun p => on_schedule data p /\ allowed_action (status p) action = true)
    (perform tape action) (fun _ => at_dawn data) never.
Proof.
  intros [[? ? ? ? st ? ? ? ? ? ? ? ? ? ?] ?] [Hs Ha]; destruct st; fields;
    allowed_cases Ha;
    unfold perform, _plant_seed, _water, _fungicide, _fumigate, _fertilize,
      _add_stress;
    allowed; wp_run; schedule.
Qed.

Lemma not_seed_schedule :
  triple (at_dawn data) end_day_not_seed (fun _ => due data) never.
Proof. unfold end_day_not_seed. hoare_cases; schedule. Qed.

Lemma evolve_schedule :
  triple (due data) (_evolve data) (fun _ => on_schedule data) never.
Proof.
  unfold _evolve, _germinate, _mature, _yield. hoare_cases; schedule.
Qed.

Lemma consume_water_schedule :
  triple (on_schedule data) (_consume_water tape)
    (fun _ => on_schedule data) never.
Proof. unfold _consume_water. hoare_cases; schedule. Qed.

Lemma calc_plant_stress_schedule :
  triple (on_schedule data) (_calc_plant_stress data)
    (fun _ => on_schedule data) anyhow.
Proof.
  unfold _calc_plant_stress, _get_moisture_diff, _get_fertilizer_diff.
  hoare_cases; schedule.
Qed.

Lemma kill_schedule (p : @Plant float) :
  on_schedule data p ->
  on_schedule data (with_dead true (with_status DEAD p)).
Proof.
  destruct p as [? ? ? ? st ? ? ? ? ? ? ? ? ? ?]. destruct st; schedule.
Qed.

Lemma interact_schedule action :
  triple (on_schedule data) (interact tape data TEXTS action)
    (fun _ => on_schedule data) anyhow.
Proof.
  apply call_rule
    with (A := at_dawn data) (B := due data) (C := on_schedule data)
         (J := on_schedule data) (J1 := on_schedule data)
         (J2 := on_schedule data) (K := on_schedule data)
         (L := on_schedule data);
    try solve [trivial].
  - eapply hoare_weaken; [apply perform_schedule | | |]; cbv beta; trivial.
  - eapply hoare_weaken; [apply not_seed_schedule | | |]; cbv beta; trivial.
  - eapply hoare_weaken; [apply evolve_schedule | | |]; cbv beta; trivial.
  - eapply hoare_weaken; [apply consume_water_schedule | | |]; cbv beta;
      trivial.
  - apply core_frame; [apply grow_keeps_core |].
    intros p p' Hc [Hp _]. exact (on_schedule_core p p' Hc Hp).
  - apply core_frame; [apply blossom_keeps_core |].
    intros p p' Hc [Hp _]. exact (on_schedule_core p p' Hc Hp).
  - apply core_frame; [apply roll_fungi_keeps_core |].
    intros p p' Hc [Hp _]. exact (on_schedule_core p p' Hc Hp).
  - apply core_frame; [apply roll_plague_keeps_core |].
    exact on_schedule_core.
  - apply calc_plant_stress_schedule.
  - intros p Hp _. exact (kill_schedule p Hp).
  - apply core_frame; [apply update_look_keeps_core |].
    exact on_schedule_core.
Qed.

Lemma new_plant_schedule : on_schedule data (new_plant data TEXTS).
Proof.
  apply (on_schedule_core (default_plant data)); [apply new_plant_core |].
  reflexivity.
Qed.

End Schedule.

Lemma reachable_schedule {float} {FO : FloatOps float} (data : Species)
    (TEXTS : Texts) (p : @Plant float) :
  ordered_thresholds data -> reachable data TEXTS p -> on_schedule data p.
Proof.
  intros Hd. apply reachable_preserve with (X := fun _ _ => True).
  - intros tape action. exact (interact_schedule tape data TEXTS Hd action).
  - exact (new_plant_schedule data TEXTS).
Qed.

(** X1. When the three days of the species come in order, every reachable
    plant has the age that goes with its status: a seed has none, a planted
    seed is younger than the germination day, a growing plant is between
    germination and maturity, a mature one between maturity and yield, the
    game is won on the day of yield exactly, and no plant, dead or alive,
    is older than that day. *)
Theorem plant_keeps_to_schedule {float} {FO : FloatOps float}
    (data : Species) (TEXTS : Texts) (p : @Plant float) :
  ordered_thresholds data -> reachable data TEXTS p ->
  on_schedule data p /\ 0 <= age p <= yield (evolution data).
Proof.
  intros Hd Hp.
  pose proof (reachable_schedule data TEXTS p Hd Hp) as Hs.
  split; [exact Hs |].
  unfold on_schedule in Hs. unfold ordered_thresholds in Hd.
  destruct (status p); lia.
Qed.

Lemma plant_keeps_to_schedule_witness :
  on_schedule sample_species sample_plant
  /\ 0 <= age sample_plant <= yield (evolution sample_species).
Proof.
  apply (plant_keeps_to_schedule sample_species sample_texts sample_plant).
  - unfold ordered_thresholds. simpl. lia.
  - exists sample_tape, sample_actions, sample_world.
    split; vm_compute; reflexivity.
Defined.

(** ** In normal play an allowed action does not fail *)

Section NoFailure.

Context {float : Type} {FO : FloatOps float}.
Variable tape : nat -> Z.
Variable data : @Species float.
Variable TEXTS : @Texts float.
Hypothesis thresholds : ordered_thresholds data.
Hypothesis tables : complete_tables data.

Local Abbreviation triple := (@hoare float _).
Local Abbreviation never := (fun (_ : Exception) (_ : @Plant float) => False).

Ltac tabled :=
  pose proof tables as (Hplant & Hmature & Hdiv);
  unfold on_schedule, at_dawn, due, ordered_thresholds in *;
  fields;
  try discriminate; try contradiction; try congruence; try lia;
  try solve [intuition (congruence || lia)];
  try solve [exfalso; intuition eauto].

Lemma grow_returns :
  triple (fun p => on_schedule data p /\ status p = PLANT) (_grow data)
    (fun _ => on_schedule data) never.
Proof. unfold _grow, _get_fertilizer_diff. hoare_cases; tabled. Qed.

Lemma blossom_returns :
  triple (fun p => on_schedule data p /\ status p = MATURE)
    (_blossom tape data) (fun _ => on_schedule data) never.
Proof. unfold _blossom, _get_fertilizer_diff. hoare_cases; tabled. Qed.

Lemma roll_fungi_returns :
  triple
    (fun p => on_schedule data p
              /\ status_in (status p) [PLANT; MATURE] = true)
    (_roll_fungi tape data)
    (fun _ p => on_schedule data p
                /\ status_in (status p) [PLANT; MATURE] = true) never.
Proof. unfold _roll_fungi. hoare_cases; tabled. Qed.

Lemma roll_plague_returns :
  triple
    (fun p => on_schedule data p
              /\ status_in (status p) [PLANT; MATURE] = true)
    (_roll_plague tape data)
    (fun _ p => on_schedule data p
                /\ status_in (status p) [PLANT; MATURE] = true) never.
Proof. unfold _roll_plague. hoare_cases; tabled. Qed.

Lemma calc_plant_stress_returns :
  triple
    (fun p => on_schedule data p
              /\ status_in (status p) [PLANT; MATURE] = true)
    (_calc_plant_stress data) (fun _ => on_schedule data) never.
Proof.
  unfold _calc_plant_stress, _get_moisture_diff, _get_fertilizer_diff.
  hoare_cases; tabled.
Qed.

Lemma update_look_returns :
  triple (on_schedule data) (_update_look data TEXTS)
    (fun _ => on_schedule data) never.
Proof. unfold _update_look, _get_fertilizer_diff. hoare_cases; tabled. Qed.

Lemma allowed_interact_returns action :
  triple
    (fun p => on_schedule data p /\ allowed_action (status p) action = true)
    (interact tape data TEXTS action) (fun _ => on_schedule data) never.
Proof.
  apply allowed_call_rule
    with (A := at_dawn data) (B := due data) (C := on_schedule data)
         (J := on_schedule data)
         (J1 := fun p => on_schedule data p
                         /\ status_in (status p) [PLANT; MATURE] = true)
         (J2 := fun p => on_schedule data p
                         /\ status_in (status p) [PLANT; MATURE] = true)
         (K := on_schedule data) (L := on_schedule data);
    try solve [trivial].
  - apply perform_schedule, thresholds.
  - apply not_seed_schedule.
  - apply evolve_schedule, thresholds.
  - apply consume_water_schedule.
  - apply grow_returns.
  - apply blossom_returns.
  - apply roll_fungi_returns.
  - apply roll_plague_returns.
  - apply calc_plant_stress_returns.
  - intros p Hp _. apply kill_schedule; [exact thresholds | exact Hp].
  - apply update_look_returns.
Qed.

End NoFailure.

(** X2. In normal play an allowed action does not fail.  When the three
    days of the species come in order, the species has a record for the
    growing and for the mature plant and an adult size that is not zero,
    every action that [STATUS_ACTIONS] lists for the status of a reachable
    plant makes [interact] return: the [ValueError]s of [_germinate],
    [_mature] and [_yield] are never raised, and the record of the status is
    never looked up for a seed.  The texts are taken as complete. *)
Theorem allowed_action_returns {float} {FO : FloatOps float}
    (data : Species) (TEXTS : Texts) (p : @Plant float) (tape : nat -> Z)
    (action : string) (d : nat) :
  ordered_thresholds data -> complete_tables data ->
  reachable data TEXTS p ->
  allowed_action (status p) action = true ->
  exists w',
    interact tape data TEXTS action {| plant := p; draws := d |}
    = (Return None, w').
Proof.
  intros Hd Ht Hp Ha.
  pose proof (allowed_interact_returns tape data TEXTS Hd Ht action
                {| plant := p; draws := d |}
                (conj (reachable_schedule data TEXTS p Hd Hp) Ha)) as H.
  apply wp_total in H as (v & w' & Hcall & _).
  exists w'. rewrite Hcall.
  rewrite (interact_value tape data TEXTS action _ w' v Hcall). reflexivity.
Qed.

Lemma allowed_action_returns_witness :
  exists w',
    interact sample_tape sample_species sample_texts "water"
      {| plant := sample_plant; draws := 8 |}
    = (Return None, w').
Proof.
  apply (allowed_action_returns sample_species sample_texts sample_plant
           sample_tape "water" 8).
  - unfold ordered_thresholds. simpl. lia.
  - unfold complete_tables. simpl.
    repeat split; discriminate.
  - exists sample_tape, sample_actions, sample_world.
    split; vm_compute; reflexivity.
  - vm_compute. reflexivity.
Defined.

(** ** What a call makes of the core *)

Section CoreProperties.

Context {float : Type} {FO : FloatOps float}.
Variable tape : nat -> Z.
Variable data : @Species float.
Variable TEXTS : @Texts float.

Local Abbreviation triple := (@hoare float _).
Local Abbreviation anyhow := (fun (_ : Exception) (_ : @Plant float) => True).

Ltac methods :=
  unfold perform, _plant_seed, _water, _fungicide, _fumigate, _fertilize,
    _add_stress, end_day_not_seed, _evolve, _germinate, _mature, _yield,
    _consume_water, _calc_plant_stress, _get_moisture_diff,
    _get_fertilizer_diff.

(** The action is the one whose test succeeded, and none of those whose
    test failed. *)
Ltac which_action :=
  repeat match goal with
         | H : (_ =? _)%string = true |- _ =>
             apply String.eqb_eq in H; subst
         end;
  unfold fertilized, treated, watered_least, watered_most, stays_seed in *;
  repeat match goal with
         | H : (_ =? _)%string = false |- _ => rewrite H in *
         end;
  allowed.

Ltac arith :=
  fields;
  repeat match goal with
         | |- context [if ?c then _ else _] => destruct c eqn:?
         end;
  try tauto; try congruence; try lia; try (intuition (congruence || lia)).

(** *** [dead] *)

Lemma dead_when_over_core (p p' : @Plant float) :
  core p' = core p -> dead_when_over p -> dead_when_over p'.
Proof. intros H. unfold dead_when_over. core_eq H. trivial. Qed.

Lemma interact_dead_when_over action :
  triple dead_when_over (interact tape data TEXTS action)
    (fun _ => dead_when_over) anyhow.
Proof.
  apply core_call_rule
    with (A := dead_when_over) (B := dead_when_over) (C := dead_when_over)
         (J := dead_when_over) (K := dead_when_over);
    try exact dead_when_over_core; try solve [trivial];
    unfold dead_when_over; methods;
    try solve [hoare_cases; arith].
  - intros p _ _. reflexivity.
Qed.

(** *** Moisture *)

Lemma interact_moisture m action :
  triple (fun p => moisture p = m) (interact tape data TEXTS action)
    (fun _ p => Z.max (watered_least action m - 20) 0 <= moisture p
                <= Z.max (watered_most action m - 10) 0) anyhow.
Proof.
  apply core_call_rule
    with (A := fun p => watered_least action m <= moisture p
                        <= watered_most action m)
         (B := fun p => watered_least action m <= moisture p
                        <= watered_most action m)
         (C := fun p => watered_least action m <= moisture p
                        <= watered_most action m)
         (J := fun p => Z.max (watered_least action m - 20) 0 <= moisture p
                        <= Z.max (watered_most action m - 10) 0)
         (K := fun p => Z.max (watered_least action m - 20) 0 <= moisture p
                        <= Z.max (watered_most action m - 10) 0);
    try solve [trivial | intros p p' H; core_eq H; trivial].
  - methods. hoare_run; trivial; destruct Hpre as [<- _]; which_action;
      fields; lia.
  - methods. hoare_run; fields; trivial.
  - methods. hoare_run; fields; trivial.
  - methods. hoare_run; fields; lia.
  - methods. hoare_run; fields; tauto.
Qed.

(** *** Fertilizer and the protective counters *)

Lemma interact_supplies f c1 c2 s action :
  triple
    (fun p => fertilizer p = f /\ fungicide p = c1 /\ fumigation p = c2
              /\ status p = s)
    (interact tape data TEXTS action)
    (fun _ p =>
       fertilizer p = counted_down (stays_seed s action) (fertilized action f)
       /\ fungicide p
          = counted_down (stays_seed s action)
              (treated ACTIONS.FUNGICIDE action c1)
       /\ fumigation p
          = counted_down (stays_seed s action)
              (treated ACTIONS.FUMIGATE action c2))
    anyhow.
Proof.
  set (Q := fun p : @Plant float =>
       fertilizer p = counted_down (stays_seed s action) (fertilized action f)
       /\ fungicide p
          = counted_down (stays_seed s action)
              (treated ACTIONS.FUNGICIDE action c1)
       /\ fumigation p
          = counted_down (stays_seed s action)
              (treated ACTIONS.FUMIGATE action c2)).
  apply core_call_rule
    with (A := fun p => fertilizer p = fertilized action f
                        /\ fungicide p = treated ACTIONS.FUNGICIDE action c1
                        /\ fumigation p = treated ACTIONS.FUMIGATE action c2
                        /\ status_eqb (status p) SEED = stays_seed s action)
         (B := Q) (C := Q) (J := Q) (K := Q);
    unfold Q;
    try solve [trivial | intros p p' H; core_eq H; trivial].
  - methods.
    hoare_cases; trivial; destruct Hpre as [(<- & <- & <- & <-) _];
      which_action; fields; auto.
  - methods. unfold counted_down.
    hoare_cases; destruct Hpre as (-> & -> & -> & <-); fields; auto.
  - methods. hoare_run; fields; trivial.
  - methods. hoare_run; fields; trivial.
  - methods. hoare_run; fields; tauto.
Qed.

(** *** Stress *)

Lemma interact_stress_floor s action :
  triple (fun p => stress p = s /\ s <= 100)
    (interact tape data TEXTS action) (fun _ p => s - 30 <= stress p) anyhow.
Proof.
  apply core_call_rule
    with (A := fun p => s <= stress p /\ s <= 100)
         (B := fun p => s <= stress p /\ s <= 100)
         (C := fun p => s <= stress p /\ s <= 100)
         (J := fun p => s <= stress p /\ s <= 100)
         (K := fun p => s - 30 <= stress p);
    try solve [trivial | intros p p' H; core_eq H; trivial].
  - methods. hoare_run; trivial; destruct Hpre as [[<- Hs] _]; fields; lia.
  - methods. hoare_run; fields; trivial.
  - methods. hoare_run; fields; trivial; lia.
  - methods. hoare_run; fields; trivial.
  - methods. hoare_run; trivial; destruct Hpre as [[Hs Hle] _]; fields; lia.
  - intros p [Hs _] _. lia.
Qed.

End CoreProperties.

Lemma reachable_dead_when_over {float} {FO : FloatOps float}
    (data : Species) (TEXTS : Texts) (p : @Plant float) :
  reachable data TEXTS p -> dead_when_over p.
Proof.
  apply reachable_preserve with (X := fun _ _ => True).
  - intros tape action. exact (interact_dead_when_over tape data TEXTS action).
  - apply (dead_when_over_core (default_plant data));
      [apply new_plant_core | reflexivity].
Qed.

(** X3. The flag [dead] of a reachable plant is set exactly when its status
    is YIELD or DEAD, so [Game.take_action], which tests the flag, ends the
    game in these two statuses and in no other; and [yielded], by which it
    tells a game won from a game lost, holds of a plant whose flag is
    set only. *)
Theorem dead_flag_marks_the_end {float} {FO : FloatOps float}
    (data : Species) (TEXTS : Texts) (p : @Plant float) :
  reachable data TEXTS p ->
  (dead p = true <-> status p = YIELD \/ status p = DEAD)
  /\ (yielded p = true -> dead p = true).
Proof.
  intros Hp. pose proof (reachable_dead_when_over data TEXTS p Hp) as H.
  unfold dead_when_over in H. unfold yielded. rewrite H.
  destruct (status p); simpl; split; try split;
    intuition (discriminate || congruence).
Qed.

Lemma dead_flag_marks_the_end_witness :
  (dead won_plant = true
   <-> status won_plant = YIELD \/ status won_plant = DEAD)
  /\ (yielded won_plant = true -> dead won_plant = true).
Proof.
  apply (dead_flag_marks_the_end sample_species sample_texts won_plant).
  exists steady_tape, winning_actions,
    (attempts steady_tape sample_species sample_texts winning_actions
       (world_of sample_new_plant)).
  split; vm_compute; reflexivity.
Defined.

(** X4. What a call that returns leaves of the water: [_water] adds 30 to
    70 points, up to 100, and the day takes 10 to 20 of them, down to 0.  So
    the moisture lies between the two bounds below; without watering, a
    moisture that is not negative never grows, and it falls by 10 at least
    unless it reaches 0. *)
Theorem moisture_after_call {float} {FO : FloatOps float}
    (tape : nat -> Z) (data : Species) (TEXTS : Texts) (action : string)
    (w w' : @World float) (v : option string) :
  interact tape data TEXTS action w = (Return v, w') ->
  Z.max (watered_least action (moisture (plant w)) - 20) 0
  <= moisture (plant w')
  <= Z.max (watered_most action (moisture (plant w)) - 10) 0.
Proof.
  intros Hcall.
  exact (hoare_returns _ _ _ _ w v w'
           (interact_moisture tape data TEXTS (moisture (plant w)) action)
           eq_refl Hcall).
Qed.

Lemma moisture_after_call_witness :
  let w := {| plant := sample_plant; draws := 8 |} in
  let w' := snd (interact sample_tape sample_species sample_texts "water" w) in
  Z.max (watered_least "water" (moisture (plant w)) - 20) 0
  <= moisture (plant w')
  <= Z.max (watered_most "water" (moisture (plant w)) - 10) 0.
Proof.
  intros w w'.
  apply (moisture_after_call sample_tape sample_species sample_texts "water"
           w w' None).
  vm_compute. reflexivity.
Defined.

(** X5. What a call that returns leaves of fertilizer, fungicide and
    fumigation, exactly: the action sets them ([_fertilize] adds 10 up to
    100, a treatment sets its counter to 5), the first block of the day
    takes 1 from each that is positive unless the plant is still a seed, and
    nothing else in the day writes them. *)
Theorem supplies_after_call {float} {FO : FloatOps float}
    (tape : nat -> Z) (data : Species) (TEXTS : Texts) (action : string)
    (w w' : @World float) (v : option string) :
  interact tape data TEXTS action w = (Return v, w') ->
  let seed := stays_seed (status (plant w)) action in
  fertilizer (plant w')
  = counted_down seed (fertilized action (fertilizer (plant w)))
  /\ fungicide (plant w')
     = counted_down seed
         (treated ACTIONS.FUNGICIDE action (fungicide (plant w)))
  /\ fumigation (plant w')
     = counted_down seed
         (treated ACTIONS.FUMIGATE action (fumigation (plant w))).
Proof.
  intros Hcall.
  exact (hoare_returns _ _ _ _ w v w'
           (interact_supplies tape data TEXTS (fertilizer (plant w))
              (fungicide (plant w)) (fumigation (plant w))
              (status (plant w)) action)
           (conj eq_refl (conj eq_refl (conj eq_refl eq_refl))) Hcall).
Qed.

Lemma supplies_after_call_witness :
  let w := {| plant := sample_plant; draws := 8 |} in
  let w' :=
    snd (interact sample_tape sample_species sample_texts "fertilize" w) in
  let seed := stays_seed (status (plant w)) "fertilize" in
  fertilizer (plant w')
  = counted_down seed (fertilized "fertilize" (fertilizer (plant w)))
  /\ fungicide (plant w')
     = counted_down seed
         (treated ACTIONS.FUNGICIDE "fertilize" (fungicide (plant w)))
  /\ fumigation (plant w')
     = counted_down seed
         (treated ACTIONS.FUMIGATE "fertilize" (fumigation (plant w))).
Proof.
  intros w w'.
  apply (supplies_after_call sample_tape sample_species sample_texts
           "fertilize" w w' None).
  vm_compute. reflexivity.
Defined.

(** X6. A day takes 30 points of stress at most: after a call that
    returns, on a plant whose stress was 100 or less, the stress is not more
    than 30 below what it was. *)
Theorem stress_relief_is_bounded {float} {FO : FloatOps float}
    (tape : nat -> Z) (data : Species) (TEXTS : Texts) (action : string)
    (w w' : @World float) (v : option string) :
  stress (plant w) <= 100 ->
  interact tape data TEXTS action w = (Return v, w') ->
  stress (plant w) - 30 <= stress (plant w').
Proof.
  intros Hs Hcall.
  exact (hoare_returns _ _ _ _ w v w'
           (interact_stress_floor tape data TEXTS (stress (plant w)) action)
           (conj eq_refl Hs) Hcall).
Qed.

Lemma stress_relief_is_bounded_witness :
  let w := {| plant := sample_plant; draws := 8 |} in
  let w' := snd (interact sample_tape sample_species sample_texts "water" w) in
  stress (plant w) - 30 <= stress (plant w').
Proof.
  intros w w'.
  apply (stress_relief_is_bounded sample_tape sample_species sample_texts
           "water" w w' None).
  - vm_compute. discriminate.
  - vm_compute. reflexivity.
Defined.

(** ** Infections and flowers *)

Section Infections.

Context {float : Type} {FO : FloatOps float}.
Variable tape : nat -> Z.
Variable data : @Species float.
Variable TEXTS : @Texts float.

Local Abbreviation triple := (@hoare float _).
Local Abbreviation anyhow := (fun (_ : Exception) (_ : @Plant float) => True).

Ltac methods :=
  unfold perform, _plant_seed, _water, _fungicide, _fumigate, _fertilize,
    _add_stress, end_day_not_seed, _evolve, _germinate, _mature, _yield,
    _consume_water, _calc_plant_stress, _get_moisture_diff,
    _grow, _blossom, _roll_fungi, _roll_plague, _update_look,
    _get_fertilizer_diff.

Ltac which_action :=
  repeat match goal with
         | H : (_ =? _)%string = true |- _ =>
             apply String.eqb_eq in H; subst
         end;
  allowed.

Ltac cases :=
  unfold shielded, infected, no_flowers_yet in *; fields;
  repeat match goal with
         | |- context [if ?c then _ else _] => destruct c eqn:?
         end;
  try tauto; try congruence; try lia;
  try solve [intuition (congruence || lia)].

(** *** A treatment that has two days to run protects for the day *)

Lemma interact_shielded f g action :
  triple
    (fun p =>
       (f = true ->
        action = ACTIONS.FUNGICIDE \/ (fungi p = false /\ 2 <= fungicide p))
       /\ (g = true ->
           action = ACTIONS.FUMIGATE
           \/ (plague p = false /\ 2 <= fumigation p)))
    (interact tape data TEXTS action) (fun _ => shielded f g 1) anyhow.
Proof.
  apply call_rule
    with (A := shielded f g 2) (B := shielded f g 1) (C := shielded f g 1)
         (J := shielded f g 1) (J1 := shielded f g 1)
         (J2 := shielded f g 1) (K := shielded f g 1)
         (L := shielded f g 1);
    try solve [trivial]; methods.
  - hoare_run; trivial; which_action; destruct Hpre as [[Hf Hg] _];
      unfold shielded; fields;
      (split; intros Hb;
       [ destruct (Hf Hb) as [Ha | [? ?]]
       | destruct (Hg Hb) as [Ha | [? ?]] ]);
      try (subst action; allowed; discriminate); try discriminate Ha;
      (split; [reflexivity || assumption | lia]).
  - hoare_run; cases.
  - hoare_run; cases.
  - hoare_run; cases.
  - hoare_run; cases.
  - hoare_run; cases.
  - hoare_run; cases.
  - hoare_run; cases.
  - hoare_run; cases.
  - hoare_run; cases.
Qed.

(** The same for a treatment that has more days to run: each call takes
    one of them. *)
Lemma interact_shielded_longer f g n action :
  1 <= n <= 4 ->
  triple (shielded f g (n + 1)) (interact tape data TEXTS action)
    (fun _ => shielded f g n) anyhow.
Proof.
  intros Hn.
  apply call_rule
    with (A := shielded f g (n + 1)) (B := shielded f g n)
         (C := shielded f g n) (J := shielded f g n)
         (J1 := shielded f g n) (J2 := shielded f g n)
         (K := shielded f g n) (L := shielded f g n);
    try solve [trivial]; methods; hoare_run; cases.
Qed.

Lemma interacts_shielded f g (actions : list string) :
  forall w w' : @World float,
    Z.of_nat (List.length actions) <= 4 ->
    shielded f g (Z.of_nat (List.length actions) + 1) (plant w) ->
    interacts tape data TEXTS actions w = Some w' ->
    shielded f g 1 (plant w').
Proof.
  induction actions as [| action rest IH]; intros w w' Hlen Hw Hrun.
  - simpl in Hrun. inversion Hrun; subst. exact Hw.
  - cbn [List.length] in Hlen. cbn [interacts] in Hrun.
    destruct (interact tape data TEXTS action w) as [[v | e] w1] eqn:Hcall;
      [| discriminate].
    apply (IH w1); [lia | | exact Hrun].
    refine (hoare_returns _ _ _ _ w v w1
              (interact_shielded_longer f g
                 (Z.of_nat (List.length rest) + 1) action _) _ Hcall);
      [lia |].
    replace (Z.of_nat (List.length rest) + 1 + 1)
      with (Z.of_nat (List.length (action :: rest)) + 1)
      by (cbn [List.length]; lia).
    exact Hw.
Qed.

(** *** An infection stays until it is treated *)

Lemma interact_infected f g action :
  triple
    (fun p =>
       (f = true -> fungi p = true /\ action <> ACTIONS.FUNGICIDE)
       /\ (g = true -> plague p = true /\ action <> ACTIONS.FUMIGATE))
    (interact tape data TEXTS action) (fun _ => infected f g) anyhow.
Proof.
  apply call_rule
    with (A := infected f g) (B := infected f g) (C := infected f g)
         (J := infected f g) (J1 := infected f g) (J2 := infected f g)
         (K := infected f g) (L := infected f g);
    try solve [trivial]; methods.
  - hoare_run; trivial; which_action; destruct Hpre as [[Hf Hg] _];
      unfold infected; fields;
      (split; intros Hb;
       [ destruct (Hf Hb) as [? Ha] | destruct (Hg Hb) as [? Ha] ]);
      try assumption; exfalso; apply Ha; reflexivity.
  - hoare_run; cases.
  - hoare_run; cases.
  - hoare_run; cases.
  - hoare_run; cases.
  - hoare_run; cases.
  - hoare_run; cases.
  - hoare_run; cases.
  - hoare_run; cases.
  - hoare_run; cases.
Qed.

(** *** No flowers before the plant is mature *)

Lemma interact_no_flowers_yet action :
  triple no_flowers_yet (interact tape data TEXTS action)
    (fun _ => no_flowers_yet) anyhow.
Proof.
  apply call_rule
    with (A := no_flowers_yet) (B := no_flowers_yet) (C := no_flowers_yet)
         (J := no_flowers_yet) (J1 := no_flowers_yet)
         (J2 := no_flowers_yet) (K := no_flowers_yet)
         (L := no_flowers_yet);
    try solve [trivial]; methods; try solve [hoare_cases; cases].
  intros p _ _. unfold no_flowers_yet. fields. discriminate.
Qed.

End Infections.

Lemma new_plant_no_flowers {float} {FO : FloatOps float} (data : Species)
    (TEXTS : Texts) :
  flowers (new_plant data TEXTS) = 0.
Proof. reflexivity. Qed.

Lemma reachable_no_flowers_yet {float} {FO : FloatOps float}
    (data : Species) (TEXTS : Texts) (p : @Plant float) :
  reachable data TEXTS p -> no_flowers_yet p.
Proof.
  apply reachable_preserve with (X := fun _ _ => True).
  - intros tape action. exact (interact_no_flowers_yet tape data TEXTS action).
  - intros _. apply new_plant_no_flowers.
Qed.

(** X7. A reachable plant has no flowers before it is mature: [flowers] is 0
    while the status is SEED, PLANTED or PLANT, so the harvest that the
    score records counts the flowers of the days of maturity alone. *)
Theorem no_flowers_before_maturity {float} {FO : FloatOps float}
    (data : Species) (TEXTS : Texts) (p : @Plant float) :
  reachable data TEXTS p ->
  status p = SEED \/ status p = PLANTED \/ status p = PLANT ->
  flowers p = 0.
Proof.
  intros Hp Hs. apply (reachable_no_flowers_yet data TEXTS p Hp).
  destruct Hs as [-> | [-> | ->]]; reflexivity.
Qed.

Lemma no_flowers_before_maturity_witness : flowers sample_plant = 0.
Proof.
  apply (no_flowers_before_maturity sample_species sample_texts sample_plant).
  - exists sample_tape, sample_actions, sample_world.
    split; vm_compute; reflexivity.
  - right. right. vm_compute. reflexivity.
Defined.

(** X8. A treatment protects for the day.  After a call that returns, the
    plant has no fungi when the action was the fungicide, or when it had
    none and the fungicide had two days or more to run; the counter then has
    a day or more left.  The same holds of the plague and the fumigation.
    With one day left the counter reaches 0 before the roll, which takes
    place. *)
Theorem treatment_protects_today {float} {FO : FloatOps float}
    (tape : nat -> Z) (data : Species) (TEXTS : Texts) (action : string)
    (w w' : @World float) (v : option string) :
  interact tape data TEXTS action w = (Return v, w') ->
  (action = ACTIONS.FUNGICIDE
   \/ (fungi (plant w) = false /\ 2 <= fungicide (plant w)) ->
   fungi (plant w') = false /\ 1 <= fungicide (plant w'))
  /\ (action = ACTIONS.FUMIGATE
      \/ (plague (plant w) = false /\ 2 <= fumigation (plant w)) ->
      plague (plant w') = false /\ 1 <= fumigation (plant w')).
Proof.
  intros Hcall. split; intros Hpre.
  - refine (proj1 (hoare_returns _ _ _ _ w v w'
                     (interact_shielded tape data TEXTS true false action)
                     _ Hcall) eq_refl).
    split; [intros _; exact Hpre | discriminate].
  - refine (proj2 (hoare_returns _ _ _ _ w v w'
                     (interact_shielded tape data TEXTS false true action)
                     _ Hcall) eq_refl).
    split; [discriminate | intros _; exact Hpre].
Qed.

Lemma treatment_protects_today_witness :
  let w := {| plant := sample_plant; draws := 8 |} in
  let w' :=
    snd (interact sample_tape sample_species sample_texts "fungicide" w) in
  fungi (plant w') = false /\ 1 <= fungicide (plant w').
Proof.
  intros w w'.
  assert (Hcall : interact sample_tape sample_species sample_texts
                    "fungicide" w = (Return None, w'))
    by (vm_compute; reflexivity).
  apply (proj1 (treatment_protects_today sample_tape sample_species
                  sample_texts "fungicide" w w' None Hcall)).
  left. reflexivity.
Defined.

(** X9. A treatment protects for as many calls as it has days to run.  From
    a plant without fungi whose fungicide counter is [n], at most 5, fewer
    than [n] calls that return, whatever the actions and the draws, lead to
    a plant without fungi; the same holds of the plague and the
    fumigation. *)
Theorem treatment_protects_for_its_days {float} {FO : FloatOps float}
    (tape : nat -> Z) (data : Species) (TEXTS : Texts)
    (actions : list string) (w w' : @World float) :
  interacts tape data TEXTS actions w = Some w' ->
  (fungi (plant w) = false ->
   Z.of_nat (List.length actions) < fungicide (plant w) <= 5 ->
   fungi (plant w') = false)
  /\ (plague (plant w) = false ->
      Z.of_nat (List.length actions) < fumigation (plant w) <= 5 ->
      plague (plant w') = false).
Proof.
  intros Hrun. split; intros Hfree Hdays.
  - refine (proj1 (proj1 (interacts_shielded tape data TEXTS true false
                            actions w w' _ _ Hrun) eq_refl)); [lia |].
    split; [intros _; split; [exact Hfree | lia] | discriminate].
  - refine (proj1 (proj2 (interacts_shielded tape data TEXTS false true
                            actions w w' _ _ Hrun) eq_refl)); [lia |].
    split; [discriminate | intros _; split; [exact Hfree | lia]].
Qed.

Lemma treatment_protects_for_its_days_witness :
  let w' :=
    attempts sample_tape sample_species sample_texts sample_actions
      treated_seed in
  fungi (plant w') = false.
Proof.
  intros w'.
  assert (Hrun : interacts sample_tape sample_species sample_texts
                   sample_actions treated_seed = Some w')
    by (vm_compute; reflexivity).
  apply (proj1 (treatment_protects_for_its_days sample_tape sample_species
                  sample_texts sample_actions treated_seed w' Hrun)).
  - vm_compute. reflexivity.
  - vm_compute. split; [reflexivity | discriminate].
Defined.

(** X10. An infection does not heal by itself: after a call that returns,
    a plant that had fungi has them still unless the action was the
    fungicide, and a plant that had a plague has it still unless the action
    was to fumigate. *)
Theorem infection_stays_until_treated {float} {FO : FloatOps float}
    (tape : nat -> Z) (data : Species) (TEXTS : Texts) (action : string)
    (w w' : @World float) (v : option string) :
  interact tape data TEXTS action w = (Return v, w') ->
  (fungi (plant w) = true -> action <> ACTIONS.FUNGICIDE ->
   fungi (plant w') = true)
  /\ (plague (plant w) = true -> action <> ACTIONS.FUMIGATE ->
      plague (plant w') = true).
Proof.
  intros Hcall. split; intros Hill Haction.
  - refine (proj1 (hoare_returns _ _ _ _ w v w'
                     (interact_infected tape data TEXTS true false action)
                     _ Hcall) eq_refl).
    split; [intros _; split; assumption | discriminate].
  - refine (proj2 (hoare_returns _ _ _ _ w v w'
                     (interact_infected tape data TEXTS false true action)
                     _ Hcall) eq_refl).
    split; [discriminate | intros _; split; assumption].
Qed.

Lemma infection_stays_until_treated_witness :
  let w := {| plant := sample_plant; draws := 8 |} in
  let w' :=
    snd (interact sample_tape sample_species sample_texts "fungicide" w) in
  plague (plant w') = true.
Proof.
  intros w w'.
  assert (Hcall : interact sample_tape sample_species sample_texts
                    "fungicide" w = (Return None, w'))
    by (vm_compute; reflexivity).
  apply (proj2 (infection_stays_until_treated sample_tape sample_species
                  sample_texts "fungicide" w w' None Hcall)).
  - vm_compute. reflexivity.
  - discriminate.
Defined.

(** ** The description *)

Section Look.

Context {float : Type} {FO : FloatOps float}.
Variable tape : nat -> Z.
Variable data : @Species float.
Variable TEXTS : @Texts float.

(** A call that returns ends with [_update_look]. *)
Lemma interact_ends_with_look action (w w' : @World float) v :
  interact tape data TEXTS action w = (Return v, w') ->
  exists w2, _update_look data TEXTS w2 = (Return tt, w').
Proof.
  intros H. unfold interact, _end_day, bind, get, raise, ret in H.
  repeat (match goal with
          | H0 : context [match ?x with _ => _ end] |- _ =>
              destruct x eqn:?
          end; cbv beta iota in *; try discriminate).
  all: inversion H; subst;
    match goal with
    | Hl : _update_look data TEXTS ?w2 = (Return ?u, _) |- _ =>
        destruct u; exists w2; exact Hl
    end.
Qed.

(** The description does not read [look]: rendering again what was just
    rendered changes nothing. *)
Lemma update_look_again (w w' : @World float) :
  _update_look data TEXTS w = (Return tt, w') ->
  _update_look data TEXTS w' = (Return tt, w').
Proof.
  destruct w as [[? ? ? ? st ? ? ? ? ? ? ? ? ? ?] ?].
  unfold _update_look, _get_fertilizer_diff, bind, get, update, ret, raise.
  destruct st; fields;
    try (destruct (per_status data _) eqn:Hs);
    intros H; inversion H; subst; fields; rewrite ?Hs; reflexivity.
Qed.

(** The description does not read the tape either. *)
Lemma update_look_draws (p : @Plant float) (d : nat) :
  _update_look data TEXTS {| plant := p; draws := d |}
  = (fst (_update_look data TEXTS (world_of p)),
     {| plant := plant (snd (_update_look data TEXTS (world_of p)));
        draws := d |}).
Proof.
  destruct p as [? ? ? ? st ? ? ? ? ? ? ? ? ? ?].
  unfold _update_look, _get_fertilizer_diff, bind, get, update, ret, raise,
    world_of.
  destruct st; fields; try (destruct (per_status data _)); reflexivity.
Qed.

Lemma rendered_world (w : @World float) :
  _update_look data TEXTS w = (Return tt, w) -> rendered data TEXTS (plant w).
Proof.
  destruct w as [p d0]. intros H d. fields.
  rewrite update_look_draws in H. rewrite update_look_draws.
  apply pair_equal_spec in H as [Hv Hw].
  apply (f_equal plant) in Hw. cbn [plant] in Hw.
  rewrite Hv, Hw. reflexivity.
Qed.

Lemma interact_rendered action :
  @hoare float _ (fun _ => True) (interact tape data TEXTS action)
    (fun _ => rendered data TEXTS) (fun _ _ => True).
Proof.
  intros w _. unfold wp.
  destruct (interact tape data TEXTS action w) as [[v | e] w'] eqn:Hcall;
    [| trivial].
  destruct (interact_ends_with_look action w w' v Hcall) as [w2 Hlook].
  apply rendered_world. exact (update_look_again w2 w' Hlook).
Qed.

Lemma new_plant_rendered : rendered data TEXTS (new_plant data TEXTS).
Proof.
  unfold new_plant.
  apply (rendered_world
           (snd (_update_look data TEXTS
                   {| plant := default_plant data; draws := 0 |}))).
  apply update_look_again with (w := {| plant := default_plant data;
                                        draws := 0 |}).
  reflexivity.
Qed.

(** What is rendered when the game is over. *)
Lemma rendered_over (p : @Plant float) :
  rendered data TEXTS p ->
  (status p = YIELD ->
   look p = ("Game completed! Final yield: " ++ str (flowers p))%string)
  /\ (status p = DEAD ->
      look p = "The plant is dead... Be more careful the next time!").
Proof.
  intros H. specialize (H 0%nat).
  destruct p as [? ? ? ? st ? ? ? ? ? ? ? ? ? ?].
  unfold _update_look, bind, get, update, ret in H.
  split; fields; intros ->; cbn [status status_eqb] in H;
    injection H as Hl; symmetry; exact Hl.
Qed.

End Look.

Lemma reachable_rendered {float} {FO : FloatOps float} (data : Species)
    (TEXTS : Texts) (p : @Plant float) :
  reachable data TEXTS p -> rendered data TEXTS p.
Proof.
  apply reachable_preserve with (X := fun _ _ => True).
  - intros tape action w Hw.
    exact (interact_rendered tape data TEXTS action w I).
  - exact (new_plant_rendered data TEXTS).
Qed.

(** X11. The description is up to date.  The [look] of a reachable plant is
    what [_update_look] makes of its other attributes: rendering the plant
    again does not fail and changes nothing.  [Game.to_form] and the moves
    of [Game.take_action], which read [look], read the current state. *)
Theorem look_is_up_to_date {float} {FO : FloatOps float}
    (data : Species) (TEXTS : Texts) (p : @Plant float) (d : nat) :
  reachable data TEXTS p ->
  _update_look data TEXTS {| plant := p; draws := d |}
  = (Return tt, {| plant := p; draws := d |}).
Proof. intros Hp. exact (reachable_rendered data TEXTS p Hp d). Qed.

Lemma look_is_up_to_date_witness :
  _update_look sample_species sample_texts
    {| plant := sample_plant; draws := 8 |}
  = (Return tt, {| plant := sample_plant; draws := 8 |}).
Proof.
  apply (look_is_up_to_date sample_species sample_texts sample_plant 8).
  exists sample_tape, sample_actions, sample_world.
  split; vm_compute; reflexivity.
Defined.

(** X12. The last message.  A reachable plant that has yielded shows the
    message of a completed game with the number of its flowers, the one
    that the score records as the harvest; a dead one shows the message of
    a dead plant. *)
Theorem game_over_messages {float} {FO : FloatOps float}
    (data : Species) (TEXTS : Texts) (p : @Plant float) :
  reachable data TEXTS p ->
  (status p = YIELD ->
   look p = ("Game completed! Final yield: " ++ str (flowers p))%string)
  /\ (status p = DEAD ->
      look p = "The plant is dead... Be more careful the next time!").
Proof.
  intros Hp.
  exact (rendered_over data TEXTS p (reachable_rendered data TEXTS p Hp)).
Qed.

Lemma game_over_messages_witness :
  (status won_plant = YIELD ->
   look won_plant
   = ("Game completed! Final yield: " ++ str (flowers won_plant))%string)
  /\ (status won_plant = DEAD ->
      look won_plant
      = "The plant is dead... Be more careful the next time!").
Proof.
  apply (game_over_messages sample_species sample_texts won_plant).
  exists steady_tape, winning_actions,
    (attempts steady_tape sample_species sample_texts winning_actions
       (world_of sample_new_plant)).
  split; vm_compute; reflexivity.
Defined.

(** ** How a call fails *)

Section Rejections.

Context {float : Type} {FO : FloatOps float}.
Variable tape : nat -> Z.
Variable data : @Species float.
Variable TEXTS : @Texts float.

Local Abbreviation triple := (@hoare float _).

(** An action that is not allowed is rejected before anything is written
    or drawn. *)
Lemma interact_rejected action (w : @World float) :
  allowed_action (status (plant w)) action = false ->
  interact tape data TEXTS action w
  = (Raise (rejection (status (plant w)) action), w).
Proof.
  unfold allowed_action, interact, bind, get, raise, rejection.
  destruct (status (plant w)); cbn [STATUS_ACTIONS]; intros H;
    try rewrite H; reflexivity.
Qed.

(** An allowed action fails on a table or in the stage evolution. *)
Lemma allowed_interact_raises action :
  triple (fun p => True /\ allowed_action (status p) action = true)
    (interact tape data TEXTS action) (fun _ _ => True)
    (fun e _ => table_fault e = true \/ evolution_error e).
Proof.
  apply allowed_call_rule
    with (A := fun _ => True) (B := fun _ => True) (C := fun _ => True)
         (J := fun _ => True) (J1 := fun _ => True) (J2 := fun _ => True)
         (K := fun _ => True) (L := fun _ => True);
    try solve [trivial];
    unfold perform, _plant_seed, _water, _fungicide, _fumigate, _fertilize,
      _add_stress, end_day_not_seed, _evolve, _germinate, _mature, _yield,
      _consume_water, _calc_plant_stress, _get_moisture_diff,
      _grow, _blossom, _roll_fungi, _roll_plague, _update_look,
      _get_fertilizer_diff, evolution_error;
    hoare_run; trivial; auto.
  exfalso. destruct Hpre as [_ Ha]. apply String.eqb_eq in Heqb0.
  subst action. unfold allowed_action in Ha.
  destruct (status (plant w)); simpl in Ha, Heqb1; discriminate.
Qed.

Lemma evolution_error_not_plant_seed e :
  table_fault e = true \/ evolution_error e ->
  e <> ValueError "You have already planted your seed".
Proof.
  intros [H | [H | [H | H]]] ->; discriminate.
Qed.

Lemma rejection_not_plant_seed s action :
  rejection s action <> ValueError "You have already planted your seed".
Proof. destruct s; discriminate. Qed.

End Rejections.

(** X13. How a call fails.  A call whose action [STATUS_ACTIONS] does not
    list for the status raises before anything is written or drawn:
    [KeyError] for a dead plant, [NotImplementedError] otherwise, and the
    plant and the tape are as they were.  A call whose action is listed
    raises on a missing table entry or a division by zero, or one of the
    three [ValueError]s of the stage evolution.  The [ValueError] of
    [_plant_seed] is never raised: the action is listed for a seed
    only. *)
Theorem interact_raises_only {float} {FO : FloatOps float}
    (tape : nat -> Z) (data : Species) (TEXTS : Texts) (action : string)
    (w w' : @World float) (e : Exception) :
  interact tape data TEXTS action w = (Raise e, w') ->
  (if allowed_action (status (plant w)) action
   then table_fault e = true \/ evolution_error e
   else e = rejection (status (plant w)) action /\ w' = w)
  /\ e <> ValueError "You have already planted your seed".
Proof.
  intros Hcall.
  destruct (allowed_action (status (plant w)) action) eqn:Ha.
  - pose proof (allowed_interact_raises tape data TEXTS action w
                  (conj I Ha)) as H.
    unfold wp in H. rewrite Hcall in H.
    split; [exact H | exact (evolution_error_not_plant_seed e H)].
  - rewrite (interact_rejected tape data TEXTS action w Ha) in Hcall.
    inversion Hcall; subst.
    split; [split; reflexivity | apply rejection_not_plant_seed].
Qed.

Lemma interact_raises_only_witness :
  let w := world_of sample_new_plant in
  let e := NotImplementedError "Action water not recognized!" in
  let w' := snd (interact sample_tape sample_species sample_texts "water" w) in
  (if allowed_action (status (plant w)) "water"
   then table_fault e = true \/ evolution_error e
   else e = rejection (status (plant w)) "water" /\ w' = w)
  /\ e <> ValueError "You have already planted your seed".
Proof.
  intros w e w'.
  apply (interact_raises_only sample_tape sample_species sample_texts
           "water" w w' e).
  vm_compute. reflexivity.
Defined.

(** ** The length of a game *)

Section Length.

Context {float : Type} {FO : FloatOps float}.
Variable tape : nat -> Z.
Variable data : @Species float.
Variable TEXTS : @Texts float.

(** Once the seed is planted, every call that returns is a day. *)
Lemma interacts_age (actions : list string) :
  forall w w' : @World float,
    status (plant w) <> SEED ->
    interacts tape data TEXTS actions w = Some w' ->
    age (plant w') = age (plant w) + Z.of_nat (List.length actions)
    /\ status (plant w') <> SEED.
Proof.
  induction actions as [| action rest IH]; intros w w' Hs Hrun.
  - simpl in Hrun. inversion Hrun; subst. simpl. split; [lia | exact Hs].
  - cbn [interacts] in Hrun.
    destruct (interact tape data TEXTS action w) as [[v | e] w1] eqn:Hcall;
      [| discriminate].
    pose proof (hoare_returns _ _ _ _ w v w1
                  (interact_age tape data TEXTS (age (plant w))
                     (status (plant w)) action)
                  (conj eq_refl eq_refl) Hcall) as Hage.
    pose proof (hoare_returns _ _ _ _ w v w1
                  (interact_ahead tape data TEXTS PLANTED action)) as Hahead.
    cbv beta in Hage, Hahead.
    assert (Hs1 : status (plant w1) <> SEED).
    { intros Heq. unfold ahead in Hahead. rewrite Heq in Hahead.
      assert (Hw : not_backward PLANTED (status (plant w)) = true)
        by (destruct (status (plant w)); [contradiction | reflexivity ..]).
      specialize (Hahead Hw Hcall). discriminate Hahead. }
    destruct (IH w1 w' Hs1 Hrun) as [Hage' Hs'].
    split; [| exact Hs'].
    assert (Hstay : stays_seed (status (plant w)) action = false)
      by (unfold stays_seed; destruct (status (plant w));
          [contradiction | reflexivity ..]).
    rewrite Hstay in Hage. cbn [List.length]. lia.
Qed.

End Length.

(** X14. The length of a game.  Once the seed is planted every call that
    returns is a day: after a sequence of calls that return, the age has
    grown by their number; and when the three days of the species come in
    order the age does not pass the day of yield, so that a reachable
    plant of age [n] that is no longer a seed takes [yield - n] more
    calls at most. *)
Theorem game_ends_by_yield_day {float} {FO : FloatOps float}
    (data : Species) (TEXTS : Texts) (p : @Plant float) (tape : nat -> Z)
    (actions : list string) (d : nat) (w' : @World float) :
  ordered_thresholds data -> reachable data TEXTS p -> status p <> SEED ->
  interacts tape data TEXTS actions {| plant := p; draws := d |} = Some w' ->
  age (plant w') = age p + Z.of_nat (List.length actions)
  /\ age (plant w') <= yield (evolution data).
Proof.
  intros Hd Hp Hs Hrun.
  split.
  - exact (proj1 (interacts_age tape data TEXTS actions
                    {| plant := p; draws := d |} w' Hs Hrun)).
  - pose proof (interacts_preserve data TEXTS (on_schedule data)
                  (fun _ _ => True)
                  (fun tape action =>
                     interact_schedule tape data TEXTS Hd action)
                  tape actions {| plant := p; draws := d |} w'
                  (reachable_schedule data TEXTS p Hd Hp) Hrun) as Hw.
    unfold on_schedule in Hw. unfold ordered_thresholds in Hd.
    destruct (status (plant w')); lia.
Qed.

Lemma game_ends_by_yield_day_witness :
  let w' :=
    attempts steady_tape sample_species sample_texts (tl winning_actions)
      {| plant := planted_seed; draws := 1 |} in
  age (plant w')
  = age planted_seed + Z.of_nat (List.length (tl winning_actions))
  /\ age (plant w') <= yield (evolution sample_species).
Proof.
  intros w'.
  apply (game_ends_by_yield_day sample_species sample_texts planted_seed
           steady_tape (tl winning_actions) 1 w').
  - unfold ordered_thresholds. simpl. lia.
  - exists steady_tape, ["plant seed"],
      (attempts steady_tape sample_species sample_texts ["plant seed"]
         (world_of sample_new_plant)).
    split; vm_compute; reflexivity.
  - vm_compute. discriminate.
  - vm_compute. reflexivity.
Defined.

(** ** The game *)

Section GameProofs.

Context {float : Type} {FO : FloatOps float}.
Variable tape : nat -> Z.
Variable data : @Species float.
Variable TEXTS : @Texts float.
Variables now today : nat -> Z.

Ltac entities :=
  cbn [plant_entity game_entity user_entity score_entities move_entities
       drawn ticks game_over moves user_name games_won score_date score_won
       score_harvest move_date move_action move_result fst snd plant draws].

(** A plant whose game is over takes no action. *)
Lemma over_not_allowed (p : @Plant float) action :
  dead_when_over p -> dead p = true -> allowed_action (status p) action = false.
Proof.
  unfold dead_when_over. intros -> Hs.
  destruct (status p); try discriminate; reflexivity.
Qed.

Lemma keys_of_moves (l : list Move) (m : Move) :
  seq 0 (List.length l) ++ [List.length l] = seq 0 (List.length (l ++ [m])).
Proof. rewrite length_app, Nat.add_1_r, seq_S. reflexivity. Qed.

Lemma last_of_moves (l : list Move) (m m' : Move) :
  last (map Some (l ++ [m])) None = Some m' -> m' = m.
Proof. rewrite map_app. cbn [map]. rewrite last_last. congruence. Qed.

Lemma new_game_consistent user :
  consistent (games_won user) (new_game data TEXTS user).
Proof.
  assert (Hdead : dead (new_plant data TEXTS) = false) by reflexivity.
  assert (Hstatus : status (new_plant data TEXTS) = SEED) by reflexivity.
  unfold consistent, new_game, yielded, dead_when_over. entities.
  rewrite Hdead, Hstatus. simpl.
  repeat split; try reflexivity; try lia. discriminate.
Qed.

Lemma take_action_consistent n action (store : @Datastore float) :
  consistent n store ->
  consistent n (snd (take_action tape data TEXTS now today action store)).
Proof.
  intros (Hd & Hg & Hu & Hs & Hm & Hl). unfold take_action.
  destruct (interact tape data TEXTS action
              {| plant := plant_entity store; draws := drawn store |})
    as [[v | e] w] eqn:Hcall.
  - pose proof (returns_allowed tape data TEXTS action _ w v Hcall) as Ha.
    cbn [plant] in Ha.
    assert (Halive : dead (plant_entity store) = false).
    { destruct (dead (plant_entity store)) eqn:Hdead; [| reflexivity].
      rewrite (over_not_allowed _ action Hd Hdead) in Ha. discriminate. }
    pose proof (hoare_returns _ _ _ _
                  {| plant := plant_entity store; draws := drawn store |}
                  v w (interact_dead_when_over tape data TEXTS action)
                  Hd Hcall) as Hd'.
    cbn [plant] in Hd'.
    assert (Hnot : yielded (plant_entity store) = false).
    { unfold yielded. unfold dead_when_over in Hd. rewrite Halive in Hd.
      destruct (status (plant_entity store)); try discriminate; reflexivity. }
    rewrite Halive in Hs, Hg. rewrite Hnot in Hu.
    destruct (dead (plant w)) eqn:Hdead; unfold end_game, consistent;
      entities; rewrite ?Hdead.
    + repeat split.
      * exact Hd'.
      * destruct (yielded (plant w)); entities; lia.
      * rewrite map_app, Hs. reflexivity.
      * rewrite Hm. apply keys_of_moves.
      * intros m Hlast. apply last_of_moves in Hlast. subst m. reflexivity.
    + assert (Hnot' : yielded (plant w) = false).
      { unfold yielded. unfold dead_when_over in Hd'. rewrite Hdead in Hd'.
        destruct (status (plant w)); try discriminate; reflexivity. }
      rewrite Hnot'. repeat split.
      * exact Hd'.
      * exact Hg.
      * exact Hu.
      * exact Hs.
      * rewrite Hm. apply keys_of_moves.
      * intros m Hlast. apply last_of_moves in Hlast. subst m. reflexivity.
  - unfold consistent. entities. repeat split; assumption.
Qed.

Lemma plays_consistent n (actions : list string) :
  forall store : @Datastore float,
    consistent n store ->
    consistent n (plays tape data TEXTS now today actions store).
Proof.
  induction actions as [| action rest IH]; intros store Hs; [exact Hs |].
  apply IH, take_action_consistent, Hs.
Qed.

(** The game that is over rejects the action, and nothing changes. *)
Lemma take_action_over n action (store : @Datastore float) :
  consistent n store -> game_over (game_entity store) = true ->
  take_action tape data TEXTS now today action store
  = (Raise (rejection (status (plant_entity store)) action), store).
Proof.
  intros (Hd & Hg & _) Hover. rewrite Hg in Hover. unfold take_action.
  rewrite (interact_rejected tape data TEXTS action
             {| plant := plant_entity store; draws := drawn store |}
             (over_not_allowed _ action Hd Hover)).
  destruct store. reflexivity.
Qed.

End GameProofs.

(** X15. The game ends with the plant.  After any sequence of
    [take_action] calls on a new game, those that raise included,
    [game_over] is set exactly when the plant has yielded or is dead; the
    game then has one score, with [won] set when the plant has yielded and
    the flowers of the plant as its harvest, and has none before; and the
    user has one more game won exactly when the plant has yielded. *)
Theorem game_ends_with_the_plant {float} {FO : FloatOps float}
    (tape : nat -> Z) (data : Species) (TEXTS : Texts) (now today : nat -> Z)
    (user : User) (actions : list string) :
  let store : @Datastore float :=
    plays tape data TEXTS now today actions (new_game data TEXTS user) in
  let p := plant_entity store in
  (game_over (game_entity store) = true
   <-> status p = YIELD \/ status p = DEAD)
  /\ map (fun s => (score_won s, score_harvest s)) (score_entities store)
     = (if game_over (game_entity store)
        then [(yielded p, flowers p)] else [])
  /\ games_won (user_entity store)
     = games_won user + (if yielded p then 1 else 0).
Proof.
  intros store p.
  destruct (plays_consistent tape data TEXTS now today (games_won user)
              actions (new_game data TEXTS user)
              (new_game_consistent data TEXTS user))
    as (Hd & Hg & Hu & Hs & _).
  fold store in Hd, Hg, Hu, Hs. fold p in Hd, Hg, Hu, Hs.
  split; [| split; [rewrite Hg; exact Hs | exact Hu]].
  rewrite Hg. unfold dead_when_over in Hd. rewrite Hd.
  destruct (status p); simpl; intuition (discriminate || congruence).
Qed.

(** X16. A game that is over takes no action.  [take_action] does not read
    [game_over], but after any sequence of calls on a new game, once the flag
    is set every call raises, [NotImplementedError] when the plant has
    yielded and [KeyError] when it is dead, and leaves the datastore as it
    was: no move is added to the game. *)
Theorem finished_game_takes_no_action {float} {FO : FloatOps float}
    (tape : nat -> Z) (data : Species) (TEXTS : Texts) (now today : nat -> Z)
    (user : User) (actions : list string) (action : string) :
  let store : @Datastore float :=
    plays tape data TEXTS now today actions (new_game data TEXTS user) in
  game_over (game_entity store) = true ->
  take_action tape data TEXTS now today action store
  = (Raise (rejection (status (plant_entity store)) action), store).
Proof.
  intros store Hover.
  apply (take_action_over tape data TEXTS now today (games_won user));
    [| exact Hover].
  apply plays_consistent, new_game_consistent.
Qed.

Lemma finished_game_takes_no_action_witness :
  let store :=
    plays (tape_of []) sample_species sample_texts sample_clock sample_clock
      (repeat "fungicide" 10%nat)
      (new_game sample_species sample_texts sample_user) in
  take_action (tape_of []) sample_species sample_texts sample_clock
    sample_clock "wait" store
  = (Raise (rejection (status (plant_entity store)) "wait"), store).
Proof.
  refine (finished_game_takes_no_action (tape_of []) sample_species
            sample_texts sample_clock sample_clock sample_user
            (repeat "fungicide" 10%nat) "wait" _).
  vm_compute. reflexivity.
Defined.

